(** * Ledger-safe: double-entry ledger, payout state machine, event log

    A shallow embedding of the Django application (ledger/, events/,
    payouts/, read_models/) and the properties its specification states.

    Modelling conventions.
    - The relational database is a record of tables; a table is the list
      of its rows in insertion order.  Unique constraints, check
      constraints, foreign keys and column widths declared on the models
      are enforced by the insert functions, with PostgreSQL's behaviour
      (the configured backend): [IntegrityError] for a violated
      constraint, [DataError] for a value wider than its column.
      Foreign keys are checked when the row is inserted.
    - Monetary amounts are [DecimalField(max_digits=19, decimal_places=2)]:
      an amount is the integer number of cents, and a value of twenty or
      more digits raises [InvalidOperation] when it is saved.  The sum
      that [Transaction.create_transaction] takes of the amounts it is
      given, before anything is saved, is Python's: it is rounded to the
      28 significant digits of the decimal context.
    - [uuid.uuid4()] is a counter in the world: every draw returns a value
      that no earlier draw returned.  Primary keys are drawn from it and
      never collide, so no insert fails on its primary key.
    - Wall-clock columns ([created_at], [updated_at], [processed_at],
      [last_updated_at]) are left out: no branch of the code reads them.
    - Python exceptions are a class and the text [str(e)] yields.
    - Code runs in a state-and-exception monad over the world (database,
      Celery queue, uuid counter).  An exception carries the world as it
      is when raised; [atomic] restores the database on the way out. *)

From Stdlib Require Import List ZArith String Ascii Bool Lia Permutation.
From Stdlib Require Import DecimalString.
Import ListNotations.
Open Scope string_scope.
Open Scope Z_scope.
Open Scope list_scope.

Infix "+++" := String.append (at level 60, right associativity).

(** ** Rendering of values: [str(...)] *)

Definition uuid := nat.
Bind Scope nat_scope with uuid.

Definition hex_char (d : N) : ascii :=
  match d with
  | 0%N => "0" | 1%N => "1" | 2%N => "2" | 3%N => "3"
  | 4%N => "4" | 5%N => "5" | 6%N => "6" | 7%N => "7"
  | 8%N => "8" | 9%N => "9" | 10%N => "a" | 11%N => "b"
  | 12%N => "c" | 13%N => "d" | 14%N => "e" | _ => "f"
  end%char.

(** The [k] low hexadecimal digits of [n], most significant first, put in
    front of [acc]. *)
Fixpoint hex_digits (k : nat) (n : N) (acc : string) : string :=
  match k with
  | O => acc
  | S k' => hex_digits k' (N.div n 16) (String (hex_char (N.modulo n 16)) acc)
  end.

(** [str(uuid)]: 32 hexadecimal digits in groups of 8-4-4-4-12. *)
Definition str_uuid (u : uuid) : string :=
  let n := N.of_nat u in
  hex_digits 8 (n / 16 ^ 24)
    ("-" +++ hex_digits 4 (n / 16 ^ 20)
      ("-" +++ hex_digits 4 (n / 16 ^ 16)
        ("-" +++ hex_digits 4 (n / 16 ^ 12)
          ("-" +++ hex_digits 12 n ""))))%N.

Definition str_N (n : N) : string := NilZero.string_of_uint (N.to_uint n).

(** [str(Decimal)] of an amount of scale 2, given in cents. *)
Definition str_decimal (cents : Z) : string :=
  let a := Z.abs_N cents in
  (if cents <? 0 then "-" else "")
    +++ str_N (a / 100)
    +++ "."
    +++ (if (a mod 100 <? 10)%N then "0" else "") +++ str_N (a mod 100).

(** [str(x)] of an optional string: [None] prints as "None". *)
Definition str_option (o : option string) : string :=
  match o with Some s => s | None => "None" end.

(** JSON payloads ([JSONField]). *)
#[warnings="-register-all"]
Inductive json : Type :=
| JNull
| JStr (s : string)
| JList (l : list json)
| JDict (kv : list (string * json)).

(** [x or {}] for an optional dict. *)
Definition or_dict (o : option json) : json :=
  match o with Some j => j | None => JDict [] end.

(** [x or ''] for an optional string. *)
Definition or_empty (o : option string) : string :=
  match o with Some s => s | None => "" end.

(** Truthiness of an optional string ([if external_payout_id:]). *)
Definition truthy (o : option string) : bool :=
  match o with Some s => negb (s =? "")%string | None => false end.

Definition option_string_eqb (a b : option string) : bool :=
  match a, b with
  | Some x, Some y => (x =? y)%string
  | None, None => true
  | _, _ => false
  end.

(** ** Exceptions *)

Inductive model : Type :=
| MAccount | MTransaction | MLedgerEntry | MEvent
| MPayout | MPayoutEvent | MAccountBalance | MPayoutSummary.

Inductive exn_class : Type :=
| ValueError
| IntegrityError
| DataError
| InvalidOperation
| Overflow
| DatabaseError
| DoesNotExist (m : model)
| MultipleObjectsReturned (m : model)
| Retry.

Record exn : Type := Exn { exn_cls : exn_class; exn_str : string }.

Definition model_eqb (a b : model) : bool :=
  match a, b with
  | MAccount, MAccount | MTransaction, MTransaction
  | MLedgerEntry, MLedgerEntry | MEvent, MEvent | MPayout, MPayout
  | MPayoutEvent, MPayoutEvent | MAccountBalance, MAccountBalance
  | MPayoutSummary, MPayoutSummary => true
  | _, _ => false
  end.

(** [except M.DoesNotExist] *)
Definition is_DoesNotExist (m : model) (e : exn) : bool :=
  match exn_cls e with DoesNotExist m' => model_eqb m m' | _ => false end.

(** [except Exception] *)
Definition is_Exception (e : exn) : bool := true.

(** ** Rows *)

Module Account.
Record t : Type := mk
  { id : uuid; account_code : string; name : string;
      account_type : string }.
End Account.

Module Transaction.
Record t : Type := mk
  { id : uuid; transaction_id : string; description : string;
      status : string; metadata : json }.
End Transaction.

Module LedgerEntry.
Record t : Type := mk
  { id : uuid; transaction : uuid; account : uuid; amount : Z;
      entry_type : string; description : string }.
End LedgerEntry.

Module Event.
Record t : Type := mk
  { id : uuid; event_id : string; event_type : string;
      aggregate_id : string; aggregate_type : string;
      event_data : json; metadata : json; sequence_number : Z }.
End Event.

Module Payout.
Record t : Type := mk
  { id : uuid; idempotency_key : string; amount : Z; currency : string;
      recipient_account : string; recipient_name : string;
      description : string; status : string;
      ledger_transaction_id : option string;
      external_payout_id : option string;
      external_reference : option string;
      error_message : option string;
      retry_count : Z; metadata : json }.
End Payout.

Module PayoutEvent.
Record t : Type := mk
  { id : uuid; payout : uuid; event_type : string; event_data : json }.
End PayoutEvent.

Module AccountBalance.
Record t : Type := mk
  { id : uuid; account : uuid; balance : Z; last_event_sequence : Z }.
End AccountBalance.

Module PayoutSummary.
Record t : Type := mk
  { id : uuid; payout : uuid; total_amount : Z; status : string;
      recipient_account : string }.
End PayoutSummary.

(** ** The database, the Celery queue and the world *)

Record DB : Type := mkDB
  { ledger_accounts : list Account.t;
    ledger_transactions : list Transaction.t;
    ledger_entries : list LedgerEntry.t;
    events : list Event.t;
    payouts : list Payout.t;
    payout_events : list PayoutEvent.t;
    account_balances : list AccountBalance.t;
    payout_summaries : list PayoutSummary.t }.

Definition empty_db : DB := mkDB [] [] [] [] [] [] [] [].

Definition set_ledger_transactions (f : list Transaction.t -> list Transaction.t) (d : DB) : DB :=
  mkDB (ledger_accounts d) (f (ledger_transactions d)) (ledger_entries d)
       (events d) (payouts d) (payout_events d) (account_balances d)
       (payout_summaries d).

Definition set_ledger_entries (f : list LedgerEntry.t -> list LedgerEntry.t) (d : DB) : DB :=
  mkDB (ledger_accounts d) (ledger_transactions d) (f (ledger_entries d))
       (events d) (payouts d) (payout_events d) (account_balances d)
       (payout_summaries d).

Definition set_events (f : list Event.t -> list Event.t) (d : DB) : DB :=
  mkDB (ledger_accounts d) (ledger_transactions d) (ledger_entries d)
       (f (events d)) (payouts d) (payout_events d) (account_balances d)
       (payout_summaries d).

Definition set_payouts (f : list Payout.t -> list Payout.t) (d : DB) : DB :=
  mkDB (ledger_accounts d) (ledger_transactions d) (ledger_entries d)
       (events d) (f (payouts d)) (payout_events d) (account_balances d)
       (payout_summaries d).

Definition set_payout_events (f : list PayoutEvent.t -> list PayoutEvent.t) (d : DB) : DB :=
  mkDB (ledger_accounts d) (ledger_transactions d) (ledger_entries d)
       (events d) (payouts d) (f (payout_events d)) (account_balances d)
       (payout_summaries d).

Definition set_account_balances (f : list AccountBalance.t -> list AccountBalance.t) (d : DB) : DB :=
  mkDB (ledger_accounts d) (ledger_transactions d) (ledger_entries d)
       (events d) (payouts d) (payout_events d) (f (account_balances d))
       (payout_summaries d).

Definition set_payout_summaries (f : list PayoutSummary.t -> list PayoutSummary.t) (d : DB) : DB :=
  mkDB (ledger_accounts d) (ledger_transactions d) (ledger_entries d)
       (events d) (payouts d) (payout_events d) (account_balances d)
       (f (payout_summaries d)).

(** A Celery message: the task, its arguments and [self.request.retries]. *)
Inductive task : Type :=
| process_payout_job (payout_id : uuid)
| initiate_external_payout_job (payout_id : uuid)
| complete_external_payout_job (payout_id : uuid) (external_payout_id : option string).

Record Job : Type := mkJob { job_task : task; job_retries : nat }.

Record World : Type := mkWorld
  { db : DB; celery : list Job; uuid_next : uuid }.

(** ** The monad *)

Inductive outcome (A : Type) : Type :=
| Ok (a : A) (w : World)
| Raise (e : exn) (w : World).
Arguments Ok {A} a w.
Arguments Raise {A} e w.

Definition M (A : Type) : Type := World -> outcome A.

Definition ret {A} (a : A) : M A := fun w => Ok a w.

Definition bind {A B} (m : M A) (k : A -> M B) : M B :=
  fun w => match m w with
           | Ok a w' => k a w'
           | Raise e w' => Raise e w'
           end.

Definition raise {A} (e : exn) : M A := fun w => Raise e w.

Notation "x <- c ;; k" := (bind c (fun x => k))
  (at level 61, c at next level, right associativity).
Notation "c ;; k" := (bind c (fun _ => k))
  (at level 61, right associativity).

(** [with transaction.atomic():] the database is put back as it was when
    the block is left by an exception.  The queue and the uuid counter live
    outside the database and keep their values. *)
Definition atomic {A} (m : M A) : M A :=
  fun w => match m w with
           | Ok a w' => Ok a w'
           | Raise e w' => Raise e (mkWorld (db w) (celery w') (uuid_next w'))
           end.

(** [try: body except <handles> as e: handler e] *)
Definition try_except {A} (body : M A) (handles : exn -> bool) (handler : exn -> M A) : M A :=
  fun w => match body w with
           | Ok a w' => Ok a w'
           | Raise e w' => if handles e then handler e w' else Raise e w'
           end.

Definition uuid4 : M uuid :=
  fun w => Ok (uuid_next w) (mkWorld (db w) (celery w) (S (uuid_next w))).

Definition query {A} (f : DB -> A) : M A := fun w => Ok (f (db w)) w.

Definition write (f : DB -> DB) : M unit :=
  fun w => Ok tt (mkWorld (f (db w)) (celery w) (uuid_next w)).

(** [task.delay(args)] *)
Definition delay (t : task) : M unit :=
  fun w => Ok tt (mkWorld (db w) (celery w ++ [mkJob t 0]) (uuid_next w)).

Definition check (b : bool) (e : exn) : M unit :=
  if b then ret tt else raise e.

(** [for x in xs: body x] *)
Fixpoint for_each {A} (xs : list A) (body : A -> M unit) : M unit :=
  match xs with
  | [] => ret tt
  | x :: rest => body x ;; for_each rest body
  end.

(** ** Constraint checks shared by the tables *)

Definition str_length (s : string) : Z := Z.of_nat (String.length s).

(** [CharField(max_length=n)] is [varchar(n)]. *)
Definition varchar (n : Z) (s : string) : M unit :=
  check (str_length s <=? n)
        (Exn DataError ("value too long for type character varying(" +++ str_N (Z.to_N n) +++ ")")).

Definition varchar_opt (n : Z) (o : option string) : M unit :=
  match o with Some s => varchar n s | None => ret tt end.

(** [DecimalField(max_digits=19, decimal_places=2)]: the value is
    quantized with a precision of 19 digits when it is saved. *)
Definition decimal_19_2 (cents : Z) : M unit :=
  check (Z.abs cents <? 10 ^ 19) (Exn InvalidOperation "[<class 'decimal.InvalidOperation'>]").

(** [BigIntegerField] *)
Definition bigint (n : Z) : M unit :=
  check ((- 2 ^ 63 <=? n) && (n <=? 2 ^ 63 - 1)) (Exn DataError "bigint out of range").

Definition violation (constraint : string) : exn := Exn IntegrityError constraint.

Definition model_name (m : model) : string :=
  match m with
  | MAccount => "Account" | MTransaction => "Transaction"
  | MLedgerEntry => "LedgerEntry" | MEvent => "Event"
  | MPayout => "Payout" | MPayoutEvent => "PayoutEvent"
  | MAccountBalance => "AccountBalance" | MPayoutSummary => "PayoutSummary"
  end.

(** [Model.objects.get(...)]: exactly one matching row, or an exception. *)
Definition objects_get {A} (m : model) (table : DB -> list A) (p : A -> bool) : M A :=
  fun w => match filter p (table (db w)) with
           | [] => Raise (Exn (DoesNotExist m) (model_name m +++ " matching query does not exist.")) w
           | [x] => Ok x w
           | _ :: _ :: _ =>
               Raise (Exn (MultipleObjectsReturned m)
                          ("get() returned more than one " +++ model_name m)) w
           end.

(** ** Decimal arithmetic

    An amount is a [Decimal] of scale 2 and is held as its number of cents.
    Python adds [Decimal]s under the thread's context, here the default
    one: 28 significant digits, ties rounded to even, [Overflow] trapped
    above [Emax].  A sum that has been rounded no longer has scale 2, so
    the result of an addition is a coefficient with an exponent.  The
    exponents that occur are those of amounts and of their rounded sums,
    from -2 upwards, so the lower bound [Emin] of the context plays no
    part. *)

Record Dec : Type := mkDec { coefficient : Z; exponent : Z }.

Definition prec : Z := 28.
Definition Emax : Z := 999999.

(** [Decimal(str(amount))] of an amount of scale 2; the constructor does
    not round. *)
Definition Decimal_of_cents (cents : Z) : Dec := mkDec cents (-2).

Fixpoint digits_fuel (fuel : nat) (n : Z) : Z :=
  match fuel with
  | O => 1
  | S fuel' => if n <? 10 then 1 else 1 + digits_fuel fuel' (n / 10)
  end.

(** [len(str(n))]: the number of decimal digits of [n >= 0]. *)
Definition digits (n : Z) : Z := digits_fuel (Z.to_nat (Z.log2 n)) n.

(** [n / 10 ^ k] rounded to the nearest integer, ties to the even one
    ([ROUND_HALF_EVEN]), for [n >= 0]. *)
Definition round_half_even (n k : Z) : Z :=
  let q := n / 10 ^ k in
  let r := n mod 10 ^ k in
  if 2 * r <? 10 ^ k then q
  else if (2 * r =? 10 ^ k) && Z.even q then q
  else q + 1.

Definition decimal_Overflow : exn := Exn Overflow "[<class 'decimal.Overflow'>]".

(** [Decimal._fix(context)]: a coefficient of more than [prec] digits is
    rounded to [prec] digits; the result must not lie above [Emax]. *)
Definition Decimal_fix (x : Dec) : M Dec :=
  let n := digits (Z.abs (coefficient x)) in
  let exp_min := n + exponent x - prec in
  if Emax - prec + 1 <? exp_min then raise decimal_Overflow
  else if exponent x <? exp_min then
    let coeff := round_half_even (Z.abs (coefficient x)) (exp_min - exponent x) in
    let carried := prec <? digits coeff in
    let coeff := if carried then coeff / 10 else coeff in
    let exp_min := if carried then exp_min + 1 else exp_min in
    if Emax - prec + 1 <? exp_min then raise decimal_Overflow
    else ret (mkDec (Z.sgn (coefficient x) * coeff) exp_min)
  else ret x.

(** [a + b]: the exact sum, written with the smaller of the two exponents,
    then rounded to the context. *)
Definition Decimal_add (a b : Dec) : M Dec :=
  let e := Z.min (exponent a) (exponent b) in
  Decimal_fix (mkDec (coefficient a * 10 ^ (exponent a - e)
                      + coefficient b * 10 ^ (exponent b - e)) e).

(** [sum(xs)]: [0 + x1 + x2 + ...], from the integer [0]. *)
Definition Decimal_sum (xs : list Dec) : M Dec :=
  fold_left (fun acc x => total <- acc ;; Decimal_add total x) xs (ret (mkDec 0 0)).

Definition zeros (n : Z) : string :=
  string_of_list_ascii (repeat "0"%char (Z.to_nat n)).

(** [n] written with at least [width] digits. *)
Definition zero_padded (width n : Z) : string :=
  zeros (width - digits n) +++ str_N (Z.to_N n).

(** [str(Decimal)]: plain notation when the exponent is at most 0 and the
    value is not below [1E-6], scientific notation with one digit before
    the point otherwise. *)
Definition Decimal_str (x : Dec) : string :=
  let a := Z.abs (coefficient x) in
  let sign := if coefficient x <? 0 then "-" else "" in
  let leftdigits := exponent x + digits a in
  if (exponent x <=? 0) && (-6 <? leftdigits) then
    let scale := 10 ^ (- exponent x) in
    sign +++ str_N (Z.to_N (a / scale))
      +++ (if exponent x =? 0 then ""
           else "." +++ zero_padded (- exponent x) (a mod scale))
  else
    let scale := 10 ^ (digits a - 1) in
    sign +++ str_N (Z.to_N (a / scale))
      +++ (if digits a =? 1 then ""
           else "." +++ zero_padded (digits a - 1) (a mod scale))
      +++ (if leftdigits =? 1 then ""
           else "E" +++ (if 1 <=? leftdigits then "+" else "-")
                    +++ str_N (Z.abs_N (leftdigits - 1))).

(** ** events/models.py *)

Definition Event_insert (e : Event.t) : M unit :=
  varchar 255 (Event.event_id e) ;;
  varchar 100 (Event.event_type e) ;;
  varchar 255 (Event.aggregate_id e) ;;
  varchar 100 (Event.aggregate_type e) ;;
  bigint (Event.sequence_number e) ;;
  check (negb (Event.event_id e =? "")%string) (violation "event_id_not_empty") ;;
  check (0 <? Event.sequence_number e) (violation "sequence_number_positive") ;;
  rows <- query events ;;
  check (negb (existsb (fun r => (Event.event_id r =? Event.event_id e)%string) rows))
        (violation "events_event_id_key") ;;
  check (negb (existsb (fun r => Event.sequence_number r =? Event.sequence_number e) rows))
        (violation "events_sequence_number_key") ;;
  write (set_events (fun l => l ++ [e])).

(** [Event.objects.create(...)] *)
Definition Event_objects_create (event_id event_type aggregate_id aggregate_type : string)
    (event_data metadata : json) (sequence_number : Z) : M Event.t :=
  u <- uuid4 ;;
  let e := Event.mk u event_id event_type aggregate_id aggregate_type
                    event_data metadata sequence_number in
  Event_insert e ;;
  ret e.

(** [aggregate(Max(...))]: [None] on an empty table. *)
Fixpoint aggregate_Max (l : list Z) : option Z :=
  match l with
  | [] => None
  | x :: rest => match aggregate_Max rest with
                 | None => Some x
                 | Some m => Some (Z.max x m)
                 end
  end.

(** [max_seq or 0] *)
Definition or_zero (o : option Z) : Z :=
  match o with
  | None => 0
  | Some m => if m =? 0 then 0 else m
  end.

Definition Event_get_next_sequence_number : M Z :=
  atomic (
    max_seq <- query (fun d => aggregate_Max (map Event.sequence_number (events d))) ;;
    ret (or_zero max_seq + 1)).

Definition Event_create_event (event_id event_type aggregate_id aggregate_type : string)
    (event_data : json) (metadata : option json) : M Event.t :=
  atomic (
    found <- query (fun d => existsb (fun r => (Event.event_id r =? event_id)%string) (events d)) ;;
    if found : bool then
      objects_get MEvent events (fun r => (Event.event_id r =? event_id)%string)
    else
      sequence_number <- Event_get_next_sequence_number ;;
      Event_objects_create event_id event_type aggregate_id aggregate_type
                           event_data (or_dict metadata) sequence_number).

(** ** ledger/models.py *)

(** One element of [entries_data]: a dict with the keys [account_id],
    [amount], [entry_type] and, optionally, [description]. *)
Record EntryData : Type := mkEntryData
  { ed_account_id : uuid; ed_amount : Z; ed_entry_type : string;
    ed_description : option string }.

(** The exact sum, as the database takes it. *)
Definition sum (l : list Z) : Z := fold_left Z.add l 0.

(** [aggregate(Sum(...))]: [None] when no row matches. *)
Definition aggregate_Sum (l : list Z) : option Z :=
  match l with
  | [] => None
  | _ => Some (sum l)
  end.

Definition has_account (pk : uuid) (d : DB) : bool :=
  existsb (fun a => Nat.eqb (Account.id a) pk) (ledger_accounts d).

Definition has_transaction (pk : uuid) (d : DB) : bool :=
  existsb (fun t => Nat.eqb (Transaction.id t) pk) (ledger_transactions d).

Definition has_payout (pk : uuid) (d : DB) : bool :=
  existsb (fun p => Nat.eqb (Payout.id p) pk) (payouts d).

Definition Transaction_insert (t : Transaction.t) : M unit :=
  varchar 100 (Transaction.transaction_id t) ;;
  varchar 20 (Transaction.status t) ;;
  check (negb (Transaction.transaction_id t =? "")%string)
        (violation "transaction_id_not_empty") ;;
  rows <- query ledger_transactions ;;
  check (negb (existsb (fun r => (Transaction.transaction_id r =? Transaction.transaction_id t)%string) rows))
        (violation "ledger_transactions_transaction_id_key") ;;
  write (set_ledger_transactions (fun l => l ++ [t])).

(** [Transaction.objects.create(...)] *)
Definition Transaction_objects_create (transaction_id description status : string)
    (metadata : json) : M Transaction.t :=
  u <- uuid4 ;;
  let t := Transaction.mk u transaction_id description status metadata in
  Transaction_insert t ;;
  ret t.

Definition LedgerEntry_insert (e : LedgerEntry.t) : M unit :=
  decimal_19_2 (LedgerEntry.amount e) ;;
  varchar 10 (LedgerEntry.entry_type e) ;;
  check (0 <=? LedgerEntry.amount e) (violation "ledger_entry_amount_non_negative") ;;
  known_transaction <- query (has_transaction (LedgerEntry.transaction e)) ;;
  check known_transaction (violation "ledger_entries_transaction_id_fkey") ;;
  known_account <- query (has_account (LedgerEntry.account e)) ;;
  check known_account (violation "ledger_entries_account_id_fkey") ;;
  write (set_ledger_entries (fun l => l ++ [e])).

(** [LedgerEntry.objects.create(...)] *)
Definition LedgerEntry_objects_create (transaction account : uuid) (amount : Z)
    (entry_type description : string) : M LedgerEntry.t :=
  u <- uuid4 ;;
  let e := LedgerEntry.mk u transaction account amount entry_type description in
  LedgerEntry_insert e ;;
  ret e.

(** [LedgerEntry.objects.filter(transaction=trans)], [trans.entries.all()] *)
Definition entries_of (pk : uuid) (d : DB) : list LedgerEntry.t :=
  filter (fun e => Nat.eqb (LedgerEntry.transaction e) pk) (ledger_entries d).


Definition Transaction_create_transaction (transaction_id description : string)
    (entries_data : list EntryData) (metadata : option json) : M Transaction.t :=
  if negb (Nat.eqb (List.length entries_data) 2) then
    raise (Exn ValueError "Double-entry ledger requires exactly 2 entries per transaction")
  else
    total <- Decimal_sum (map (fun entry => Decimal_of_cents (ed_amount entry)) entries_data) ;;
    if negb (coefficient total =? 0) then
      raise (Exn ValueError ("Transaction entries must balance to zero. Total: " +++ Decimal_str total))
    else
      trans <- atomic (
        trans <- Transaction_objects_create transaction_id description "COMPLETED"
                                            (or_dict metadata) ;;
        for_each entries_data (fun entry_data =>
          LedgerEntry_objects_create (Transaction.id trans)
                                     (ed_account_id entry_data)
                                     (ed_amount entry_data)
                                     (ed_entry_type entry_data)
                                     (or_empty (ed_description entry_data)) ;;
          ret tt) ;;
        balance <- query (fun d =>
          or_zero (aggregate_Sum (map LedgerEntry.amount (entries_of (Transaction.id trans) d)))) ;;
        if negb (balance =? 0) then
          raise (Exn ValueError ("Transaction balance verification failed: " +++ str_decimal balance))
        else
          ret trans) ;;
      ret trans.

(** ** read_models/models.py *)

Definition AccountBalance_insert (b : AccountBalance.t) : M unit :=
  decimal_19_2 (AccountBalance.balance b) ;;
  bigint (AccountBalance.last_event_sequence b) ;;
  known_account <- query (has_account (AccountBalance.account b)) ;;
  check known_account (violation "account_balances_account_id_fkey") ;;
  rows <- query account_balances ;;
  check (negb (existsb (fun r => Nat.eqb (AccountBalance.account r) (AccountBalance.account b)) rows))
        (violation "account_balances_account_id_key") ;;
  write (set_account_balances (fun l => l ++ [b])).

(** [obj.save()] of a row read from the table. *)
Definition AccountBalance_save (b : AccountBalance.t) : M unit :=
  decimal_19_2 (AccountBalance.balance b) ;;
  bigint (AccountBalance.last_event_sequence b) ;;
  write (set_account_balances
           (map (fun r => if Nat.eqb (AccountBalance.id r) (AccountBalance.id b) then b else r))).

(** [cls.objects.update_or_create(account=account, defaults={'balance': balance})] *)
Definition AccountBalance_update_or_create (account : Account.t) (balance : Z) : M AccountBalance.t :=
  atomic (
    existing <- try_except
      (obj <- objects_get MAccountBalance account_balances
                (fun r => Nat.eqb (AccountBalance.account r) (Account.id account)) ;;
       ret (Some obj))
      (is_DoesNotExist MAccountBalance)
      (fun _ => ret None) ;;
    match existing with
    | Some obj =>
        let obj' := AccountBalance.mk (AccountBalance.id obj) (AccountBalance.account obj)
                                      balance (AccountBalance.last_event_sequence obj) in
        AccountBalance_save obj' ;;
        ret obj'
    | None =>
        u <- uuid4 ;;
        let obj := AccountBalance.mk u (Account.id account) balance 0 in
        AccountBalance_insert obj ;;
        ret obj
    end).

Definition in_list (s : string) (l : list string) : bool :=
  existsb (fun x => (s =? x)%string) l.

(** The loop body of [rebuild_for_account].  The entries are rows of the
    ledger, whose amounts have at most 19 digits: the running balance
    stays within the 28 digits of the decimal context for fewer than
    [10 ^ 9] of them, and is taken exactly. *)
Definition rebuild_step (account : Account.t) (balance : Z) (entry : LedgerEntry.t) : Z :=
  if in_list (Account.account_type account) ["ASSET"; "EXPENSE"] then
    if (LedgerEntry.entry_type entry =? "DEBIT")%string then
      balance + LedgerEntry.amount entry
    else
      balance - LedgerEntry.amount entry
  else
    if (LedgerEntry.entry_type entry =? "CREDIT")%string then
      balance + LedgerEntry.amount entry
    else
      balance - LedgerEntry.amount entry.

(** [LedgerEntry.objects.filter(account=account)] *)
Definition entries_of_account (pk : uuid) (d : DB) : list LedgerEntry.t :=
  filter (fun e => Nat.eqb (LedgerEntry.account e) pk) (ledger_entries d).

Definition AccountBalance_rebuild_for_account (account : Account.t) : M AccountBalance.t :=
  entries <- query (entries_of_account (Account.id account)) ;;
  let balance := fold_left (rebuild_step account) entries 0 in
  AccountBalance_update_or_create account balance.

(** ** ledger/services.py *)

Definition entry_json (entry : LedgerEntry.t) : json :=
  JDict [ ("account_id", JStr (str_uuid (LedgerEntry.account entry)));
          ("amount", JStr (str_decimal (LedgerEntry.amount entry)));
          ("entry_type", JStr (LedgerEntry.entry_type entry)) ].

Definition LedgerService_create_transaction (transaction_id description : string)
    (entries_data : list EntryData) (metadata : option json) : M Transaction.t :=
  atomic (
    trans <- Transaction_create_transaction transaction_id description entries_data metadata ;;
    u <- uuid4 ;;
    let event_id := "ledger_txn_" +++ transaction_id +++ "_" +++ str_uuid u in
    entries <- query (entries_of (Transaction.id trans)) ;;
    Event_create_event event_id "LEDGER_TRANSACTION_CREATED"
      (str_uuid (Transaction.id trans)) "Transaction"
      (JDict [ ("transaction_id", JStr transaction_id);
               ("description", JStr description);
               ("entries", JList (map entry_json entries));
               ("metadata", or_dict metadata) ])
      None ;;
    entries <- query (entries_of (Transaction.id trans)) ;;
    for_each entries (fun entry =>
      account <- objects_get MAccount ledger_accounts
                   (fun a => Nat.eqb (Account.id a) (LedgerEntry.account entry)) ;;
      AccountBalance_rebuild_for_account account ;;
      ret tt) ;;
    ret trans).

(** ** payouts/models.py *)

(** [IntegerField] *)
Definition integer (n : Z) : M unit :=
  check ((- 2 ^ 31 <=? n) && (n <=? 2 ^ 31 - 1)) (Exn DataError "integer out of range").

Definition Payout_insert (p : Payout.t) : M unit :=
  decimal_19_2 (Payout.amount p) ;;
  varchar 255 (Payout.idempotency_key p) ;;
  varchar 3 (Payout.currency p) ;;
  varchar 255 (Payout.recipient_account p) ;;
  varchar 255 (Payout.recipient_name p) ;;
  varchar 20 (Payout.status p) ;;
  varchar_opt 100 (Payout.ledger_transaction_id p) ;;
  varchar_opt 255 (Payout.external_payout_id p) ;;
  varchar_opt 255 (Payout.external_reference p) ;;
  integer (Payout.retry_count p) ;;
  check (negb (Payout.idempotency_key p =? "")%string) (violation "idempotency_key_not_empty") ;;
  check (0 <? Payout.amount p) (violation "payout_amount_positive") ;;
  rows <- query payouts ;;
  check (negb (existsb (fun r => (Payout.idempotency_key r =? Payout.idempotency_key p)%string) rows))
        (violation "payouts_idempotency_key_key") ;;
  write (set_payouts (fun l => l ++ [p])).

(** The [defaults] dict of [get_or_create_pending]. *)
Record PayoutDefaults : Type := mkPayoutDefaults
  { d_amount : Z; d_recipient_account : string; d_recipient_name : string;
    d_description : string; d_metadata : json }.

(** [cls.objects.create(idempotency_key=..., status=..., **defaults)];
    the other columns take their declared defaults. *)
Definition Payout_objects_create (idempotency_key status : string)
    (defaults : PayoutDefaults) : M Payout.t :=
  u <- uuid4 ;;
  let p := Payout.mk u idempotency_key (d_amount defaults) "USD"
                     (d_recipient_account defaults) (d_recipient_name defaults)
                     (d_description defaults) status None None None None 0
                     (d_metadata defaults) in
  Payout_insert p ;;
  ret p.

(** Assignments to the attributes of a payout object. *)
Definition with_status (s : string) (p : Payout.t) : Payout.t :=
  Payout.mk (Payout.id p) (Payout.idempotency_key p) (Payout.amount p)
    (Payout.currency p) (Payout.recipient_account p) (Payout.recipient_name p)
    (Payout.description p) s (Payout.ledger_transaction_id p)
    (Payout.external_payout_id p) (Payout.external_reference p)
    (Payout.error_message p) (Payout.retry_count p) (Payout.metadata p).

Definition with_ledger_transaction_id (v : option string) (p : Payout.t) : Payout.t :=
  Payout.mk (Payout.id p) (Payout.idempotency_key p) (Payout.amount p)
    (Payout.currency p) (Payout.recipient_account p) (Payout.recipient_name p)
    (Payout.description p) (Payout.status p) v
    (Payout.external_payout_id p) (Payout.external_reference p)
    (Payout.error_message p) (Payout.retry_count p) (Payout.metadata p).

Definition with_external_payout_id (v : option string) (p : Payout.t) : Payout.t :=
  Payout.mk (Payout.id p) (Payout.idempotency_key p) (Payout.amount p)
    (Payout.currency p) (Payout.recipient_account p) (Payout.recipient_name p)
    (Payout.description p) (Payout.status p) (Payout.ledger_transaction_id p)
    v (Payout.external_reference p)
    (Payout.error_message p) (Payout.retry_count p) (Payout.metadata p).

Definition with_external_reference (v : option string) (p : Payout.t) : Payout.t :=
  Payout.mk (Payout.id p) (Payout.idempotency_key p) (Payout.amount p)
    (Payout.currency p) (Payout.recipient_account p) (Payout.recipient_name p)
    (Payout.description p) (Payout.status p) (Payout.ledger_transaction_id p)
    (Payout.external_payout_id p) v
    (Payout.error_message p) (Payout.retry_count p) (Payout.metadata p).

Definition with_error_message (v : option string) (p : Payout.t) : Payout.t :=
  Payout.mk (Payout.id p) (Payout.idempotency_key p) (Payout.amount p)
    (Payout.currency p) (Payout.recipient_account p) (Payout.recipient_name p)
    (Payout.description p) (Payout.status p) (Payout.ledger_transaction_id p)
    (Payout.external_payout_id p) (Payout.external_reference p)
    v (Payout.retry_count p) (Payout.metadata p).

Definition with_retry_count (v : Z) (p : Payout.t) : Payout.t :=
  Payout.mk (Payout.id p) (Payout.idempotency_key p) (Payout.amount p)
    (Payout.currency p) (Payout.recipient_account p) (Payout.recipient_name p)
    (Payout.description p) (Payout.status p) (Payout.ledger_transaction_id p)
    (Payout.external_payout_id p) (Payout.external_reference p)
    (Payout.error_message p) v (Payout.metadata p).

(** The column names that occur in [update_fields]. *)
Inductive payout_field : Type :=
| f_status | f_ledger_transaction_id | f_external_payout_id
| f_external_reference | f_error_message | f_retry_count
| f_processed_at | f_updated_at.

(** The row [r] with column [f] taken from the object [self]. *)
Definition assign_column (self : Payout.t) (r : Payout.t) (f : payout_field) : Payout.t :=
  match f with
  | f_status => with_status (Payout.status self) r
  | f_ledger_transaction_id => with_ledger_transaction_id (Payout.ledger_transaction_id self) r
  | f_external_payout_id => with_external_payout_id (Payout.external_payout_id self) r
  | f_external_reference => with_external_reference (Payout.external_reference self) r
  | f_error_message => with_error_message (Payout.error_message self) r
  | f_retry_count => with_retry_count (Payout.retry_count self) r
  | f_processed_at | f_updated_at => r
  end.

Definition validate_column (self : Payout.t) (f : payout_field) : M unit :=
  match f with
  | f_status => varchar 20 (Payout.status self)
  | f_ledger_transaction_id => varchar_opt 100 (Payout.ledger_transaction_id self)
  | f_external_payout_id => varchar_opt 255 (Payout.external_payout_id self)
  | f_external_reference => varchar_opt 255 (Payout.external_reference self)
  | f_retry_count => integer (Payout.retry_count self)
  | f_error_message | f_processed_at | f_updated_at => ret tt
  end.

(** [self.save(update_fields=[...])]: the listed columns of the row with
    the object's primary key are overwritten. *)
Definition Payout_save (self : Payout.t) (update_fields : list payout_field) : M unit :=
  for_each update_fields (validate_column self) ;;
  known <- query (has_payout (Payout.id self)) ;;
  check known (Exn DatabaseError "Save with update_fields did not affect any rows.") ;;
  write (set_payouts
           (map (fun r => if Nat.eqb (Payout.id r) (Payout.id self)
                          then fold_left (assign_column self) update_fields r
                          else r))).

Definition Payout_get_or_create_pending (idempotency_key : string)
    (defaults : PayoutDefaults) : M (Payout.t * bool) :=
  atomic (
    try_except
      (payout <- objects_get MPayout payouts
                   (fun r => (Payout.idempotency_key r =? idempotency_key)%string) ;;
       ret (payout, false))
      (is_DoesNotExist MPayout)
      (fun _ =>
         payout <- Payout_objects_create idempotency_key "PENDING" defaults ;;
         ret (payout, true))).

Definition Payout_mark_processing (self : Payout.t) : M Payout.t :=
  atomic (
    payout <- objects_get MPayout payouts
                (fun r => Nat.eqb (Payout.id r) (Payout.id self)) ;;
    if negb (Payout.status payout =? "PENDING")%string then
      raise (Exn ValueError ("Cannot process payout in status: " +++ Payout.status payout))
    else
      let payout := with_status "PROCESSING" payout in
      Payout_save payout [f_status; f_updated_at] ;;
      ret payout).

(** The methods below assign to [self]; they return the object as it is
    after the assignments. *)
Definition Payout_mark_completed (self : Payout.t)
    (external_payout_id external_reference : option string) : M Payout.t :=
  let self := with_status "COMPLETED" self in
  let self := if truthy external_payout_id
              then with_external_payout_id external_payout_id self else self in
  let self := if truthy external_reference
              then with_external_reference external_reference self else self in
  Payout_save self [f_status; f_external_payout_id; f_external_reference;
                    f_processed_at; f_updated_at] ;;
  ret self.

Definition Payout_mark_failed (self : Payout.t) (error_message : string) : M Payout.t :=
  let self := with_status "FAILED" self in
  let self := with_error_message (Some error_message) self in
  let self := with_retry_count (Payout.retry_count self + 1) self in
  Payout_save self [f_status; f_error_message; f_retry_count; f_updated_at] ;;
  ret self.

Definition PayoutEvent_insert (e : PayoutEvent.t) : M unit :=
  varchar 50 (PayoutEvent.event_type e) ;;
  known <- query (has_payout (PayoutEvent.payout e)) ;;
  check known (violation "payout_events_payout_id_fkey") ;;
  write (set_payout_events (fun l => l ++ [e])).

(** [PayoutEvent.objects.create(...)] *)
Definition PayoutEvent_objects_create (payout : uuid) (event_type : string)
    (event_data : json) : M PayoutEvent.t :=
  u <- uuid4 ;;
  let e := PayoutEvent.mk u payout event_type event_data in
  PayoutEvent_insert e ;;
  ret e.

Definition PayoutSummary_insert (s : PayoutSummary.t) : M unit :=
  decimal_19_2 (PayoutSummary.total_amount s) ;;
  varchar 20 (PayoutSummary.status s) ;;
  varchar 255 (PayoutSummary.recipient_account s) ;;
  known <- query (has_payout (PayoutSummary.payout s)) ;;
  check known (violation "payout_summaries_payout_id_fkey") ;;
  rows <- query payout_summaries ;;
  check (negb (existsb (fun r => Nat.eqb (PayoutSummary.payout r) (PayoutSummary.payout s)) rows))
        (violation "payout_summaries_payout_id_key") ;;
  write (set_payout_summaries (fun l => l ++ [s])).

(** [PayoutSummary.objects.create(...)] *)
Definition PayoutSummary_objects_create (payout : uuid) (total_amount : Z)
    (status recipient_account : string) : M PayoutSummary.t :=
  u <- uuid4 ;;
  let s := PayoutSummary.mk u payout total_amount status recipient_account in
  PayoutSummary_insert s ;;
  ret s.

(** [PayoutSummary.objects.filter(payout=payout).update(status=...)] *)
Definition PayoutSummary_update_status (payout : uuid) (status : string) : M unit :=
  varchar 20 status ;;
  write (set_payout_summaries
           (map (fun r => if Nat.eqb (PayoutSummary.payout r) payout
                          then PayoutSummary.mk (PayoutSummary.id r) (PayoutSummary.payout r)
                                 (PayoutSummary.total_amount r) status
                                 (PayoutSummary.recipient_account r)
                          else r))).

(** ** payouts/services.py *)

Definition CASH_ACCOUNT_CODE : string := "CASH_001".
Definition PAYOUT_LIABILITY_ACCOUNT_CODE : string := "PAYOUT_LIABILITY_001".

Definition PayoutService_initiate_payout (idempotency_key : string) (amount : Z)
    (recipient_account : string) (recipient_name description : option string)
    (metadata : option json) : M Payout.t :=
  atomic (
    r <- Payout_get_or_create_pending idempotency_key
           (mkPayoutDefaults amount recipient_account (or_empty recipient_name)
                             (or_empty description) (or_dict metadata)) ;;
    let (payout, created) := r : Payout.t * bool in
    if negb created then
      ret payout
    else
      PayoutEvent_objects_create (Payout.id payout) "CREATED"
        (JDict [ ("idempotency_key", JStr idempotency_key);
                 ("amount", JStr (str_decimal amount));
                 ("recipient_account", JStr recipient_account) ]) ;;
      u <- uuid4 ;;
      Event_create_event
        ("payout_created_" +++ idempotency_key +++ "_" +++ str_uuid u)
        "PAYOUT_CREATED" (str_uuid (Payout.id payout)) "Payout"
        (JDict [ ("idempotency_key", JStr idempotency_key);
                 ("amount", JStr (str_decimal amount));
                 ("recipient_account", JStr recipient_account) ])
        None ;;
      PayoutSummary_objects_create (Payout.id payout) amount "PENDING" recipient_account ;;
      ret payout).

(** One statement of a [try:] block whose handler is [except Exception as e]:
    its value, or the exception it raised. *)
Definition attempt {A} (m : M A) : M (A + exn) :=
  try_except (x <- m ;; ret (inl x)) is_Exception (fun e => ret (inr e)).

Definition PayoutService_process_payout (payout : Payout.t) : M Payout.t :=
  atomic (
    payout <- Payout_mark_processing payout ;;
    PayoutEvent_objects_create (Payout.id payout) "PROCESSING_STARTED" (JDict []) ;;
    u <- uuid4 ;;
    Event_create_event
      ("payout_processing_" +++ Payout.idempotency_key payout +++ "_" +++ str_uuid u)
      "PAYOUT_PROCESSING" (str_uuid (Payout.id payout)) "Payout"
      (JDict [ ("idempotency_key", JStr (Payout.idempotency_key payout));
               ("amount", JStr (str_decimal (Payout.amount payout))) ])
      None ;;
    accounts <- try_except
      (cash_account <- objects_get MAccount ledger_accounts
                         (fun a => (Account.account_code a =? CASH_ACCOUNT_CODE)%string) ;;
       liability_account <- objects_get MAccount ledger_accounts
                         (fun a => (Account.account_code a =? PAYOUT_LIABILITY_ACCOUNT_CODE)%string) ;;
       ret (Some (cash_account, liability_account)))
      (is_DoesNotExist MAccount)
      (fun _ => ret None) ;;
    match accounts with
    | None => Payout_mark_failed payout "Required accounts not found"
    | Some (cash_account, liability_account) =>
        let transaction_id := "payout_" +++ Payout.idempotency_key payout in
        r <- attempt (LedgerService_create_transaction transaction_id
                        ("Payout to " +++ Payout.recipient_account payout)
                        [ mkEntryData (Account.id liability_account) (Payout.amount payout)
                                      "DEBIT" (Some "Payout liability debit");
                          mkEntryData (Account.id cash_account) (Payout.amount payout)
                                      "CREDIT" (Some "Cash payout credit") ]
                        (Some (JDict [ ("payout_id", JStr (str_uuid (Payout.id payout))) ]))) ;;
        match r with
        | inr e => Payout_mark_failed payout (exn_str e)
        | inl ledger_trans =>
            let payout := with_ledger_transaction_id
                            (Some (Transaction.transaction_id ledger_trans)) payout in
            r <- attempt (Payout_save payout [f_ledger_transaction_id]) ;;
            match r with
            | inr e => Payout_mark_failed payout (exn_str e)
            | inl _ =>
                r <- attempt (PayoutEvent_objects_create (Payout.id payout)
                                "LEDGER_ENTRY_CREATED"
                                (JDict [ ("transaction_id", JStr transaction_id) ])) ;;
                match r with
                | inr e => Payout_mark_failed payout (exn_str e)
                | inl _ =>
                    delay (initiate_external_payout_job (Payout.id payout)) ;;
                    ret payout
                end
            end
        end
    end).

(** ** payouts/tasks.py *)

(** [raise self.retry(exc=exc)]: the message is sent again while retries
    are left, and [Retry] is raised; otherwise [exc] is raised. *)
Definition retry {A} (self : Job) (max_retries : nat) (exc : exn) : M A :=
  if Nat.ltb (job_retries self) max_retries then
    fun w => Raise (Exn Retry ("Retry: " +++ exn_str exc))
                   (mkWorld (db w)
                            (celery w ++ [mkJob (job_task self) (S (job_retries self))])
                            (uuid_next w))
  else
    raise exc.

(** The two handlers every task ends with:
    [except Payout.DoesNotExist: return {'error': 'Payout not found'}]
    [except Exception as exc: raise self.retry(exc=exc)]. *)
Definition task_handlers (self : Job) (max_retries : nat) (body : M json) : M json :=
  try_except body is_Exception
    (fun e => if is_DoesNotExist MPayout e
              then ret (JDict [ ("error", JStr "Payout not found") ])
              else retry self max_retries e).

Definition Payout_objects_get (payout_id : uuid) : M Payout.t :=
  objects_get MPayout payouts (fun r => Nat.eqb (Payout.id r) payout_id).

Definition process_payout_task (self : Job) (payout_id : uuid) : M json :=
  task_handlers self 3 (
    payout <- Payout_objects_get payout_id ;;
    if in_list (Payout.status payout) ["COMPLETED"; "FAILED"] then
      ret (JDict [ ("status", JStr (Payout.status payout));
                   ("message", JStr "Already processed") ])
    else
      payout <- PayoutService_process_payout payout ;;
      ret (JDict [ ("status", JStr (Payout.status payout));
                   ("payout_id", JStr (str_uuid (Payout.id payout)));
                   ("idempotency_key", JStr (Payout.idempotency_key payout)) ])).

Definition initiate_external_payout (self : Job) (payout_id : uuid) : M json :=
  task_handlers self 5 (
    payout <- Payout_objects_get payout_id ;;
    if (Payout.status payout =? "COMPLETED")%string then
      ret (JDict [ ("status", JStr "completed"); ("message", JStr "Already completed") ])
    else if negb (Payout.status payout =? "PROCESSING")%string then
      ret (JDict [ ("status", JStr (Payout.status payout)); ("message", JStr "Invalid state") ])
    else if truthy (Payout.external_payout_id payout) then
      ret (JDict [ ("status", JStr "already_initiated");
                   ("external_payout_id", JStr (str_option (Payout.external_payout_id payout))) ])
    else
      u <- uuid4 ;;
      let external_payout_id := "ext_" +++ Payout.idempotency_key payout +++ "_" +++ str_uuid u in
      PayoutEvent_objects_create (Payout.id payout) "EXTERNAL_PAYOUT_INITIATED"
        (JDict [ ("external_payout_id", JStr external_payout_id) ]) ;;
      let payout := with_external_payout_id (Some external_payout_id) payout in
      Payout_save payout [f_external_payout_id; f_updated_at] ;;
      delay (complete_external_payout_job (Payout.id payout) (Some external_payout_id)) ;;
      ret (JDict [ ("status", JStr "initiated");
                   ("external_payout_id", JStr external_payout_id) ])).

Definition json_option (o : option string) : json :=
  match o with Some s => JStr s | None => JNull end.

Definition complete_external_payout (self : Job) (payout_id : uuid)
    (external_payout_id : option string) : M json :=
  task_handlers self 3 (
    payout <- Payout_objects_get payout_id ;;
    if negb (option_string_eqb (Payout.external_payout_id payout) external_payout_id) then
      ret (JDict [ ("error", JStr "External payout ID mismatch") ])
    else if (Payout.status payout =? "COMPLETED")%string then
      ret (JDict [ ("status", JStr "completed"); ("message", JStr "Already completed") ])
    else
      PayoutEvent_objects_create (Payout.id payout) "EXTERNAL_PAYOUT_COMPLETED"
        (JDict [ ("external_payout_id", json_option external_payout_id) ]) ;;
      payout <- Payout_mark_completed payout external_payout_id
                  (Some ("ref_" +++ str_option external_payout_id)) ;;
      u <- uuid4 ;;
      Event_create_event
        ("payout_completed_" +++ Payout.idempotency_key payout +++ "_" +++ str_uuid u)
        "PAYOUT_COMPLETED" (str_uuid (Payout.id payout)) "Payout"
        (JDict [ ("idempotency_key", JStr (Payout.idempotency_key payout));
                 ("external_payout_id", json_option external_payout_id) ])
        None ;;
      PayoutSummary_update_status (Payout.id payout) "COMPLETED" ;;
      ret (JDict [ ("status", JStr "completed");
                   ("payout_id", JStr (str_uuid (Payout.id payout))) ])).

(** The worker: a message is taken from the queue and its task is run;
    what the task returns or raises is the task's result, the world it
    leaves is what counts. *)
Definition run_task (self : Job) : M json :=
  match job_task self with
  | process_payout_job payout_id => process_payout_task self payout_id
  | initiate_external_payout_job payout_id => initiate_external_payout self payout_id
  | complete_external_payout_job payout_id external_payout_id =>
      complete_external_payout self payout_id external_payout_id
  end.

Definition world_of {A} (o : outcome A) : World :=
  match o with Ok _ w => w | Raise _ w => w end.

Fixpoint run_worker (fuel : nat) (w : World) : World :=
  match fuel with
  | O => w
  | S fuel' =>
      match celery w with
      | [] => w
      | job :: rest =>
          run_worker fuel' (world_of (run_task job (mkWorld (db w) rest (uuid_next w))))
      end
  end.

(** [process_payout_task.delay(str(payout.id))], as the view does after
    admission. *)
Definition enqueue_process_payout (payout : Payout.t) : M unit :=
  delay (process_payout_job (Payout.id payout)).

(** * Specification vocabulary

    The predicates and functions the theorems are stated with. *)

(** ** Frame conditions *)

(** [frames R m]: running [m] relates the world it starts in to the world
    it leaves, whether it returns or raises. *)
Definition frames (R : World -> World -> Prop) {A} (m : M A) : Prop :=
  forall w, R w (world_of (m w)).

(** ** Event log *)

Definition stored_event (event_id : string) (d : DB) : bool :=
  existsb (fun r => (Event.event_id r =? event_id)%string) (events d).

(** The rows [Event.objects.get(event_id=...)] looks at. *)
Definition events_with_id (event_id : string) (w : World) : list Event.t :=
  filter (fun r => (Event.event_id r =? event_id)%string) (events (db w)).

Definition next_sequence_number (d : DB) : Z :=
  or_zero (aggregate_Max (map Event.sequence_number (events d))) + 1.

(** The world after a row is added to the log under a fresh primary key. *)
Definition append_event (e : Event.t) (w : World) : World :=
  mkWorld (set_events (fun l => l ++ [e]) (db w)) (celery w) (S (uuid_next w)).

(** The log only grows. *)
Definition log_extended (w w' : World) : Prop :=
  exists more, events (db w') = events (db w) ++ more.

(** ** Ledger *)

(** The entry row made from one element of [entries_data]. *)
Definition new_entry (pk transaction : uuid) (d : EntryData) : LedgerEntry.t :=
  LedgerEntry.mk pk transaction (ed_account_id d) (ed_amount d) (ed_entry_type d)
                 (or_empty (ed_description d)).

(** Invariants L1 and L2 for one transaction. *)
Definition balanced (pk : uuid) (d : DB) : bool :=
  Nat.eqb (List.length (entries_of pk d)) 2
  && (sum (map LedgerEntry.amount (entries_of pk d)) =? 0).

(** The ledger invariant: every stored transaction has exactly two entries
    whose amounts sum to zero, and the uuid counter is ahead of every
    transaction key the ledger tables hold. *)
Definition ledger_okb (w : World) : bool :=
  forallb (fun t => Nat.ltb (Transaction.id t) (uuid_next w)) (ledger_transactions (db w))
  && forallb (fun e => Nat.ltb (LedgerEntry.transaction e) (uuid_next w)) (ledger_entries (db w))
  && forallb (fun t => balanced (Transaction.id t) (db w)) (ledger_transactions (db w)).

Definition ledger_ok (w : World) : Prop := ledger_okb w = true.

(** [t] is a stored transaction with exactly two entries that sum to zero. *)
Definition committed (t : Transaction.t) (w : World) : Prop :=
  In t (ledger_transactions (db w))
  /\ List.length (entries_of (Transaction.id t) (db w)) = 2%nat
  /\ sum (map LedgerEntry.amount (entries_of (Transaction.id t) (db w))) = 0.

(** The ledger tables are left as they are and the uuid counter does not
    go back. *)
Definition ledger_same (w w' : World) : Prop :=
  ledger_transactions (db w') = ledger_transactions (db w)
  /\ ledger_entries (db w') = ledger_entries (db w)
  /\ (uuid_next w <= uuid_next w')%nat.

Definition entries_non_negative (w : World) : bool :=
  forallb (fun e => 0 <=? LedgerEntry.amount e) (ledger_entries (db w)).

Definition non_negative_kept (w w' : World) : Prop :=
  entries_non_negative w = true -> entries_non_negative w' = true.

(** ** Account balances *)

(** The balance rule in the specification's words: an entry counts
    [+amount] when it is a DEBIT on an ASSET or EXPENSE account or a CREDIT
    on an account of any other type, and [-amount] otherwise. *)
Definition counts_positive (account : Account.t) (entry : LedgerEntry.t) : bool :=
  (in_list (Account.account_type account) ["ASSET"; "EXPENSE"]
   && (LedgerEntry.entry_type entry =? "DEBIT")%string)
  || (negb (in_list (Account.account_type account) ["ASSET"; "EXPENSE"])
      && (LedgerEntry.entry_type entry =? "CREDIT")%string).

Definition contribution (account : Account.t) (entry : LedgerEntry.t) : Z :=
  if counts_positive account entry
  then LedgerEntry.amount entry
  else - LedgerEntry.amount entry.

Definition spec_balance (account : Account.t) (entries : list LedgerEntry.t) : Z :=
  sum (map (contribution account) entries).

(** The balance [rebuild_for_account] computes in world [w]. *)
Definition rebuilt (account : Account.t) (w : World) : Z :=
  fold_left (rebuild_step account) (entries_of_account (Account.id account) (db w)) 0.

(** The rows [update_or_create(account=account)] looks at. *)
Definition balance_of (account : Account.t) (w : World) : list AccountBalance.t :=
  filter (fun r => Nat.eqb (AccountBalance.account r) (Account.id account))
         (account_balances (db w)).

Fixpoint distinct (l : list nat) : bool :=
  match l with
  | [] => true
  | x :: rest => negb (existsb (Nat.eqb x) rest) && distinct rest
  end.

(** Primary keys of the balance rows: pairwise distinct and already drawn. *)
Definition balances_ok (w : World) : Prop :=
  distinct (map AccountBalance.id (account_balances (db w))) = true
  /\ forallb (fun r => Nat.ltb (AccountBalance.id r) (uuid_next w))
             (account_balances (db w)) = true.

Definition balances_with (f : list AccountBalance.t -> list AccountBalance.t) (w : World) : World :=
  mkWorld (set_account_balances f (db w)) (celery w) (uuid_next w).

Definition replace_balance (b : AccountBalance.t) (r : AccountBalance.t) : AccountBalance.t :=
  if Nat.eqb (AccountBalance.id r) (AccountBalance.id b) then b else r.

(** ** Payout state machine *)

(** The rows [Payout.objects.get(pk=...)] looks at. *)
Definition payout_rows (payout_id : uuid) (w : World) : list Payout.t :=
  filter (fun r => Nat.eqb (Payout.id r) payout_id) (payouts (db w)).

Definition statuses (payout_id : uuid) (w : World) : list string :=
  map Payout.status (payout_rows payout_id w).

Definition is_terminal (status : string) : bool :=
  in_list status ["COMPLETED"; "FAILED"; "CANCELLED"].

(** An operation on a payout object is absorbing when it leaves the status
    of every payout that is in a terminal state as it is. *)
Definition absorbing {A} (op : Payout.t -> M A) : Prop :=
  forall w payout,
    payout_rows (Payout.id payout) w = [payout] ->
    is_terminal (Payout.status payout) = true ->
    statuses (Payout.id payout) (world_of (op payout w)) = [Payout.status payout].



(** ** Admission *)

(** The rows [Payout.objects.get(idempotency_key=...)] looks at. *)
Definition payouts_with_key (key : string) (w : World) : list Payout.t :=
  filter (fun r => (Payout.idempotency_key r =? key)%string) (payouts (db w)).

(** The event id the admission of [key] builds from the uuid [u]. *)
Definition payout_created_event_id (key : string) (u : uuid) : string :=
  "payout_created_" +++ key +++ "_" +++ str_uuid u.

(** A request the schema accepts.  The bound on the key is the width of
    [events.event_id] (255) less the 52 characters the event id adds to
    the key. *)
Definition valid_admission (key : string) (amount : Z) (recipient_account : string)
    (recipient_name : option string) : bool :=
  negb (key =? "")%string
  && (str_length key <=? 203)
  && (0 <? amount) && (amount <? 10 ^ 19)
  && (str_length recipient_account <=? 255)
  && (str_length (or_empty recipient_name) <=? 255).

(** A world in which what the admission draws is new: its event id is not
    in the log, no summary refers to the primary key the payout gets, and
    the next sequence number is a positive bigint. *)
Definition ready_for_admission (key : string) (w : World) : bool :=
  negb (stored_event (payout_created_event_id key (2 + uuid_next w)) (db w))
  && negb (existsb (fun r => Nat.eqb (PayoutSummary.payout r) (uuid_next w))
                   (payout_summaries (db w)))
  && (0 <? next_sequence_number (db w))
  && (next_sequence_number (db w) <=? 2 ^ 63 - 1).

(** A key of [n] characters. *)
Definition key_of_length (n : nat) : string :=
  string_of_list_ascii (repeat "k"%char n).

(** The rows an admission inserts, and the world it leaves. *)
Definition admitted_payout (key : string) (amount : Z) (recipient_account : string)
    (recipient_name description : option string) (metadata : option json) (w : World) : Payout.t :=
  Payout.mk (uuid_next w) key amount "USD" recipient_account (or_empty recipient_name)
            (or_empty description) "PENDING" None None None None 0 (or_dict metadata).

Definition admission_data (key : string) (amount : Z) (recipient_account : string) : json :=
  JDict [ ("idempotency_key", JStr key);
          ("amount", JStr (str_decimal amount));
          ("recipient_account", JStr recipient_account) ].

Definition admitted_world (key : string) (amount : Z) (recipient_account : string)
    (recipient_name description : option string) (metadata : option json) (w : World) : World :=
  let u := uuid_next w in
  mkWorld
    (mkDB (ledger_accounts (db w)) (ledger_transactions (db w)) (ledger_entries (db w))
          (events (db w)
             ++ [ Event.mk (3 + u) (payout_created_event_id key (2 + u)) "PAYOUT_CREATED"
                           (str_uuid u) "Payout" (admission_data key amount recipient_account)
                           (JDict []) (next_sequence_number (db w)) ])
          (payouts (db w)
             ++ [ admitted_payout key amount recipient_account recipient_name description
                                  metadata w ])
          (payout_events (db w)
             ++ [ PayoutEvent.mk (1 + u) u "CREATED"
                                 (admission_data key amount recipient_account) ])
          (account_balances (db w))
          (payout_summaries (db w)
             ++ [ PayoutSummary.mk (4 + u) u amount "PENDING" recipient_account ]))
    (celery w) (5 + u).

(** ** Worlds the examples run in *)

(** The accounts [init_accounts] seeds, and nothing else. *)
Definition w_operational : World :=
  mkWorld (mkDB [ Account.mk 0 "CASH_001" "Cash Account" "ASSET";
                  Account.mk 1 "PAYOUT_LIABILITY_001" "Payout Liability Account" "LIABILITY" ]
                [] [] [] [] [] [] [])
          [] 2.

(** A ledger with three entries on two accounts. *)
Definition w_rebuild : World :=
  mkWorld (mkDB [ Account.mk 0 "ASSET_004" "Cash Account" "ASSET";
                  Account.mk 1 "LIABILITY_004" "Accounts Payable" "LIABILITY" ]
                [ Transaction.mk 2 "rebuild_txn_001" "Transaction 1" "COMPLETED" (JDict []) ]
                [ LedgerEntry.mk 3 2 0 10000 "DEBIT" "";
                  LedgerEntry.mk 4 2 1 5000 "CREDIT" "";
                  LedgerEntry.mk 5 2 0 2500 "CREDIT" "" ]
                [] [] [] [] [])
          [] 6.

(** A world holding one payout. *)
Definition world_with (payout : Payout.t) : World :=
  mkWorld (mkDB [ Account.mk 0 "CASH_001" "Cash Account" "ASSET";
                  Account.mk 1 "PAYOUT_LIABILITY_001" "Payout Liability Account" "LIABILITY" ]
                [] [] [] [ payout ] [] [] [])
          [] 3.

Definition processing_payout : Payout.t :=
  Payout.mk 2 "process_test_001" 10000 "USD" "account_123" "" "" "PROCESSING"
            None None None None 0 (JDict []).

Definition completed_payout : Payout.t :=
  Payout.mk 2 "k1" 10000 "USD" "r1" "" "" "COMPLETED"
            (Some "payout_k1") (Some "ext_k1") (Some "ref_ext_k1") None 0 (JDict []).

Definition failed_payout : Payout.t :=
  Payout.mk 2 "k1" 10000 "USD" "r1" "" "" "FAILED"
            None None None (Some "Required accounts not found") 1 (JDict []).

Definition cancelled_payout : Payout.t :=
  Payout.mk 2 "k1" 10000 "USD" "r1" "" "" "CANCELLED"
            None None None None 0 (JDict []).

(** Scenario S1: the payout [k1] of 100.00 is admitted, its job is put on
    the queue, and the worker runs until the queue is empty. *)
Definition s1_admitted : World :=
  world_of (PayoutService_initiate_payout "k1" 10000 "r1" None None None w_operational).

Definition s1_queued : World :=
  world_of (enqueue_process_payout
              (admitted_payout "k1" 10000 "r1" None None None w_operational) s1_admitted).

Definition s1_done : World := run_worker 10 s1_queued.

(** ** Invariants and append-only tables *)


(** [grows proj]: the list [proj] reads off the database is only extended
    at its end. *)
Definition grows {A} (proj : DB -> list A) (w w' : World) : Prop :=
  exists more, proj (db w') = proj (db w) ++ more.





(** * Proofs *)

(** ** The monad *)

Lemma world_eta (w : World) : mkWorld (db w) (celery w) (uuid_next w) = w.
Proof. destruct w; reflexivity. Qed.

Lemma bind_inv {A B} (m : M A) (k : A -> M B) w b w2 :
  bind m k w = Ok b w2 -> exists a w1, m w = Ok a w1 /\ k a w1 = Ok b w2.
Proof.
  unfold bind; destruct (m w) as [a w1|e w1]; intros H; [eauto | discriminate].
Qed.

Lemma bind_check_inv {B} b e (k : unit -> M B) w r w' :
  bind (check b e) k w = Ok r w' -> b = true /\ k tt w = Ok r w'.
Proof. destruct b; cbn; intros H; [auto | discriminate]. Qed.

Lemma bind_check_true {B} b e (k : unit -> M B) w :
  b = true -> bind (check b e) k w = k tt w.
Proof. intros ->; reflexivity. Qed.

Lemma atomic_inv {A} (m : M A) w a w' : atomic m w = Ok a w' -> m w = Ok a w'.
Proof. unfold atomic; destruct (m w); intros H; [assumption | discriminate]. Qed.

Lemma atomic_Raise_db {A} (m : M A) w e w' : atomic m w = Raise e w' -> db w' = db w.
Proof.
  unfold atomic; destruct (m w); intros H; [discriminate|].
  inversion H; reflexivity.
Qed.

(** A passed check disappears from the head of the code. *)
Ltac pass :=
  rewrite bind_check_true
    by first [ assumption | reflexivity
             | (apply Z.leb_le; cbn; lia) | (apply Z.ltb_lt; cbn; lia) ].

(** ** Lists *)

Lemma existsb_false_filter {A} (p : A -> bool) l : existsb p l = false -> filter p l = [].
Proof.
  induction l as [|x l IH]; cbn; [reflexivity|].
  destruct (p x); cbn; [discriminate | exact IH].
Qed.

Lemma filter_nil_existsb {A} (p : A -> bool) l : filter p l = [] -> existsb p l = false.
Proof.
  induction l as [|x l IH]; cbn; [reflexivity|].
  destruct (p x); cbn; [discriminate | exact IH].
Qed.

Lemma filter_cons_existsb {A} (p : A -> bool) l x r : filter p l = x :: r -> existsb p l = true.
Proof.
  destruct (existsb p l) eqn:E; [reflexivity|].
  rewrite (existsb_false_filter _ _ E); discriminate.
Qed.

Lemma filter_singleton_In {A} (p : A -> bool) l x :
  filter p l = [x] -> In x l /\ p x = true.
Proof.
  intros F. apply filter_In. rewrite F. left; reflexivity.
Qed.

Lemma filter_map_commute {A} (p : A -> bool) (g : A -> A) l :
  (forall r, In r l -> p (g r) = p r) -> filter p (map g l) = map g (filter p l).
Proof.
  induction l as [|x l IH]; cbn; [reflexivity|]. intros H.
  rewrite (H x (or_introl eq_refl)).
  destruct (p x); cbn; rewrite IH; auto.
Qed.

Lemma map_id_on {A} (g : A -> A) l : (forall r, In r l -> g r = r) -> map g l = l.
Proof.
  induction l as [|x l IH]; cbn; [reflexivity|]. intros H.
  rewrite (H x (or_introl eq_refl)), IH; auto.
Qed.

Lemma distinct_In_eq {A} (f : A -> nat) l x y :
  distinct (map f l) = true -> In x l -> In y l -> f x = f y -> x = y.
Proof.
  induction l as [|z l IH]; cbn; [tauto|].
  rewrite andb_true_iff, negb_true_iff. intros (N & D) Ix Iy E.
  assert (H : forall v, In v l -> f z <> f v).
  { intros v Iv Q. assert (T : existsb (Nat.eqb (f z)) (map f l) = true).
    { apply existsb_exists. exists (f v). split; [apply in_map, Iv | apply Nat.eqb_eq, Q]. }
    congruence. }
  destruct Ix as [<-|Ix], Iy as [<-|Iy]; auto.
  - exfalso. eapply H; eauto.
  - exfalso. eapply H; eauto.
Qed.

Lemma fold_left_add_acc l acc : fold_left Z.add l acc = acc + fold_left Z.add l 0.
Proof.
  revert acc. induction l as [|x l IH]; intros acc; cbn; [lia|].
  rewrite IH, (IH x). lia.
Qed.

Lemma sum_pair a b : sum [a; b] = a + b.
Proof. reflexivity. Qed.

Lemma sum_cons x l : sum (x :: l) = x + sum l.
Proof. unfold sum; cbn. rewrite fold_left_add_acc. lia. Qed.

(** ** Strings *)

Lemma length_append s1 s2 :
  String.length (s1 +++ s2) = (String.length s1 + String.length s2)%nat.
Proof. induction s1 as [|c s1 IH]; cbn; [reflexivity | rewrite IH; reflexivity]. Qed.

Lemma length_hex_digits k n acc :
  String.length (hex_digits k n acc) = (k + String.length acc)%nat.
Proof.
  revert n acc. induction k as [|k IH]; intros n acc; cbn [hex_digits]; [reflexivity|].
  rewrite IH. cbn. lia.
Qed.

Lemma length_str_uuid u : String.length (str_uuid u) = 36%nat.
Proof.
  unfold str_uuid. cbv zeta.
  repeat (rewrite length_hex_digits || rewrite length_append). reflexivity.
Qed.

(** ** Decimal arithmetic *)

Lemma digits_fuel_pos fuel n : 1 <= digits_fuel fuel n.
Proof.
  revert n. induction fuel as [|fuel IH]; intros n; cbn [digits_fuel]; [lia|].
  destruct (n <? 10); [lia|]. specialize (IH (n / 10)). lia.
Qed.

Lemma digits_pos n : 1 <= digits n.
Proof. apply digits_fuel_pos. Qed.

Lemma digits_fuel_lower fuel n : 0 < n -> 10 ^ (digits_fuel fuel n - 1) <= n.
Proof.
  revert n. induction fuel as [|fuel IH]; intros n P; cbn [digits_fuel].
  - cbn. lia.
  - destruct (Z.ltb_spec n 10) as [L|L]; [cbn; lia|].
    replace (1 + digits_fuel fuel (n / 10) - 1) with (Z.succ (digits_fuel fuel (n / 10) - 1)) by lia.
    pose proof (digits_fuel_pos fuel (n / 10)).
    rewrite Z.pow_succ_r by lia.
    assert (0 < n / 10) by (apply Z.div_str_pos; lia).
    specialize (IH (n / 10) ltac:(assumption)).
    pose proof (Z.mul_div_le n 10 ltac:(lia)). lia.
Qed.

(** A number of [d] digits is at least [10 ^ (d - 1)]. *)
Lemma digits_lower n : 0 < n -> 10 ^ (digits n - 1) <= n.
Proof. apply digits_fuel_lower. Qed.

Lemma digits_fuel_upper fuel n :
  0 <= n -> Z.log2 n <= Z.of_nat fuel -> n < 10 ^ digits_fuel fuel n.
Proof.
  revert n. induction fuel as [|fuel IH]; intros n P L; cbn [digits_fuel].
  - change (Z.of_nat 0) with 0 in L. change (10 ^ 1) with 10.
    destruct (Z.eq_dec n 0) as [->|N]; [lia|].
    pose proof (Z.log2_nonneg n).
    pose proof (Z.log2_spec n ltac:(lia)) as [_ B].
    replace (Z.log2 n) with 0 in B by lia. cbn in B. lia.
  - destruct (Z.ltb_spec n 10) as [T|T]; [cbn; lia|].
    pose proof (digits_fuel_pos fuel (n / 10)).
    replace (1 + digits_fuel fuel (n / 10)) with (Z.succ (digits_fuel fuel (n / 10))) by lia.
    rewrite Z.pow_succ_r by lia.
    assert (Q : n / 10 < 10 ^ digits_fuel fuel (n / 10)).
    { apply IH; [apply Z.div_pos; lia|].
      pose proof (Z.log2_spec n ltac:(lia)) as [_ B].
      pose proof (Z.log2_nonneg n) as N.
      assert (C : 2 ^ Z.succ (Z.log2 n) <= 2 ^ Z.succ (Z.succ (Z.of_nat fuel)))
        by (apply Z.pow_le_mono_r; lia).
      rewrite (Z.pow_succ_r 2 (Z.succ (Z.of_nat fuel))) in C by lia.
      assert (D : n / 10 < 2 ^ Z.succ (Z.of_nat fuel)).
      { apply Z.div_lt_upper_bound; [lia|].
        pose proof (Z.pow_pos_nonneg 2 (Z.succ (Z.of_nat fuel)) ltac:(lia) ltac:(lia)). lia. }
      apply Z.log2_lt_pow2 in D; [lia|]. apply Z.div_str_pos; lia. }
    pose proof (Z.mod_pos_bound n 10 ltac:(lia)).
    pose proof (Z.div_mod n 10 ltac:(lia)). lia.
Qed.

(** A number of [d] digits is below [10 ^ d]. *)
Lemma digits_upper n : 0 <= n -> n < 10 ^ digits n.
Proof.
  intros P. apply digits_fuel_upper; [exact P|].
  rewrite Z2Nat.id by apply Z.log2_nonneg. lia.
Qed.

Lemma digits_le n k : 0 <= n -> 1 <= k -> n < 10 ^ k -> digits n <= k.
Proof.
  intros P K L. destruct (Z.eq_dec n 0) as [->|N]; [cbn; lia|].
  pose proof (digits_lower n ltac:(lia)) as D.
  destruct (Z_le_gt_dec (digits n) k) as [|G]; [assumption|exfalso].
  assert (10 ^ k <= 10 ^ (digits n - 1)) by (apply Z.pow_le_mono_r; lia).
  lia.
Qed.

Lemma round_half_even_lower n k : n / 10 ^ k <= round_half_even n k.
Proof.
  unfold round_half_even. cbv zeta.
  destruct (_ <? _); [lia|]. destruct (_ && _); lia.
Qed.

(** Rounding to the context keeps the sign: a value that is not zero is
    not rounded to zero. *)
Lemma Decimal_fix_sgn x w t w' :
  Decimal_fix x w = Ok t w' -> Z.sgn (coefficient t) = Z.sgn (coefficient x) /\ w' = w.
Proof.
  unfold Decimal_fix. cbv zeta. set (n := digits (Z.abs (coefficient x))).
  destruct (Z.ltb_spec (Emax - prec + 1) (n + exponent x - prec)) as [O|O];
    [discriminate|].
  destruct (Z.ltb_spec (exponent x) (n + exponent x - prec)) as [L|L].
  - set (k := n + exponent x - prec - exponent x).
    set (coeff := round_half_even (Z.abs (coefficient x)) k).
    assert (P : 10 ^ 27 <= coeff).
    { etransitivity; [|apply round_half_even_lower].
      assert (N : 0 < Z.abs (coefficient x)).
      { destruct (Z.eq_dec (coefficient x) 0) as [E|E]; [|lia].
        exfalso. unfold n in L. rewrite E in L. change (digits (Z.abs 0)) with 1 in L.
        unfold prec in L. lia. }
      pose proof (digits_lower _ N) as D. fold n in D.
      apply Z.div_le_lower_bound; [apply Z.pow_pos_nonneg; unfold k, prec in *; lia|].
      rewrite <- Z.pow_add_r by (unfold k, prec in *; lia).
      replace (k + 27) with (n - 1) by (unfold k, prec; lia). exact D. }
    assert (Q : 0 < (if prec <? digits coeff then coeff / 10 else coeff)).
    { destruct (prec <? digits coeff); [|lia].
      apply Z.div_str_pos. change (10 ^ 27) with 1000000000000000000000000000 in P. lia. }
    match goal with
    | |- (if ?b then _ else _) w = _ -> _ => destruct b
    end; [discriminate|]. intros H. inversion H; subst; clear H.
    cbn [coefficient]. rewrite Z.sgn_mul, (Z.sgn_pos _ Q). split; [lia | reflexivity].
  - intros H. inversion H; subst. auto.
Qed.

Lemma Decimal_fix_raises x w e w' : Decimal_fix x w = Raise e w' -> w' = w.
Proof.
  unfold Decimal_fix. cbv zeta.
  repeat match goal with
         | |- context [if ?b then _ else _] => destruct b
         end; intros H; inversion H; reflexivity.
Qed.

(** A coefficient of at most 28 digits is not rounded. *)
Lemma Decimal_fix_exact c e :
  Z.abs c < 10 ^ 28 -> e <= 0 -> Decimal_fix (mkDec c e) = ret (mkDec c e).
Proof.
  intros B E. unfold Decimal_fix. cbv zeta. cbn [coefficient exponent].
  pose proof (digits_le (Z.abs c) 28 ltac:(lia) ltac:(lia) B) as D.
  destruct (Z.ltb_spec (Emax - prec + 1) (digits (Z.abs c) + e - prec)) as [O|O];
    [unfold Emax, prec in O; lia|].
  destruct (Z.ltb_spec e (digits (Z.abs c) + e - prec)) as [L|L];
    [unfold prec in L; lia | reflexivity].
Qed.

(** A coefficient of 29 digits is rounded, and the result is in range. *)
Lemma Decimal_fix_returns c w :
  Z.abs c < 10 ^ 29 -> exists t, Decimal_fix (mkDec c (-2)) w = Ok t w.
Proof.
  intros B. unfold Decimal_fix. cbv zeta. cbn [coefficient exponent].
  pose proof (digits_le (Z.abs c) 29 ltac:(lia) ltac:(lia) B) as D.
  destruct (Z.ltb_spec (Emax - prec + 1) (digits (Z.abs c) + -2 - prec)) as [O|O];
    [unfold Emax, prec in O; lia|].
  destruct (Z.ltb_spec (-2) (digits (Z.abs c) + -2 - prec)) as [L|L]; [|eexists; reflexivity].
  match goal with
  | |- context [Emax - prec + 1 <? ?e] =>
      destruct (Z.ltb_spec (Emax - prec + 1) e) as [O'|O']
  end; [|eexists; reflexivity].
  exfalso. destruct (prec <? _); unfold Emax, prec in *; lia.
Qed.

Lemma Decimal_add_cents a b :
  Decimal_add (Decimal_of_cents a) (Decimal_of_cents b) = Decimal_fix (Decimal_of_cents (a + b)).
Proof.
  unfold Decimal_add, Decimal_of_cents. cbn [coefficient exponent].
  change (Z.min (-2) (-2)) with (-2). change (10 ^ (-2 - -2)) with 1.
  f_equal. f_equal. lia.
Qed.

Lemma Decimal_add_zero a :
  Decimal_add (mkDec 0 0) (Decimal_of_cents a) = Decimal_fix (Decimal_of_cents a).
Proof.
  unfold Decimal_add, Decimal_of_cents. cbn [coefficient exponent].
  change (Z.min 0 (-2)) with (-2). change (10 ^ (-2 - -2)) with 1.
  f_equal. f_equal. lia.
Qed.

(** The sum of two amounts, as [create_transaction] takes it. *)
Lemma Decimal_sum_pair a b w :
  Decimal_sum [Decimal_of_cents a; Decimal_of_cents b] w
  = bind (Decimal_fix (Decimal_of_cents a))
         (fun total => Decimal_add total (Decimal_of_cents b)) w.
Proof.
  unfold Decimal_sum. cbn [fold_left]. unfold bind at 1 2. cbn [ret].
  rewrite Decimal_add_zero. reflexivity.
Qed.

(** Amounts of at most 28 digits whose sum has at most 28 digits are
    added exactly. *)
Lemma Decimal_sum_exact a b w :
  Z.abs a < 10 ^ 28 -> Z.abs (a + b) < 10 ^ 28 ->
  Decimal_sum [Decimal_of_cents a; Decimal_of_cents b] w = Ok (Decimal_of_cents (a + b)) w.
Proof.
  intros A B. rewrite Decimal_sum_pair. unfold Decimal_of_cents.
  rewrite (Decimal_fix_exact a (-2) A) by lia. unfold bind, ret.
  fold (Decimal_of_cents a) (Decimal_of_cents b). rewrite Decimal_add_cents.
  unfold Decimal_of_cents. rewrite (Decimal_fix_exact (a + b) (-2) B) by lia. reflexivity.
Qed.

(** The sum leaves the world alone. *)
Lemma Decimal_sum_world xs w : world_of (Decimal_sum xs w) = w.
Proof.
  unfold Decimal_sum.
  assert (G : forall (acc : M Dec), world_of (acc w) = w ->
              world_of (fold_left (fun acc x => total <- acc ;; Decimal_add total x) xs acc w) = w).
  { induction xs as [|x xs IH]; intros acc H; cbn [fold_left]; [exact H|].
    apply IH. unfold bind. destruct (acc w) as [t w1|e w1]; cbn in H; subst w1; [|reflexivity].
    unfold Decimal_add.
    match goal with |- world_of (Decimal_fix ?y w) = w => destruct (Decimal_fix y w) eqn:F end.
    - apply Decimal_fix_sgn in F. cbn. apply F.
    - apply Decimal_fix_raises in F. cbn. exact F. }
  apply G. reflexivity.
Qed.

Lemma Decimal_sum_Ok xs w t w' : Decimal_sum xs w = Ok t w' -> w' = w.
Proof. intros H. pose proof (Decimal_sum_world xs w) as W. rewrite H in W. exact W. Qed.

Lemma Decimal_sum_Raise xs w e w' : Decimal_sum xs w = Raise e w' -> w' = w.
Proof. intros H. pose proof (Decimal_sum_world xs w) as W. rewrite H in W. exact W. Qed.

(** Two amounts of at most 28 digits that do not cancel: the sum returns,
    and it is not zero. *)
Lemma Decimal_sum_nonzero a b w :
  Z.abs a < 10 ^ 28 -> Z.abs b < 10 ^ 28 -> a + b <> 0 ->
  exists total,
    Decimal_sum [Decimal_of_cents a; Decimal_of_cents b] w = Ok total w
    /\ coefficient total <> 0.
Proof.
  intros A B N. rewrite Decimal_sum_pair. unfold Decimal_of_cents at 1.
  rewrite (Decimal_fix_exact a (-2) A) by lia. unfold bind, ret.
  fold (Decimal_of_cents a). rewrite Decimal_add_cents. unfold Decimal_of_cents.
  destruct (Decimal_fix_returns (a + b) w) as (t & F).
  { change (10 ^ 29) with (10 * 10 ^ 28). lia. }
  exists t. split; [exact F|].
  apply Decimal_fix_sgn in F. destruct F as [S _]. cbn [coefficient] in S.
  intros Z. rewrite Z in S. cbn in S. symmetry in S. apply Z.sgn_null_iff in S. lia.
Qed.


Lemma str_N_0 : str_N 0 = "0".
Proof. reflexivity. Qed.

Lemma digits_one m : 0 <= m < 10 -> digits m = 1.
Proof.
  intros B. pose proof (digits_pos m). pose proof (digits_le m 1 ltac:(lia) ltac:(lia)).
  change (10 ^ 1) with 10 in *. lia.
Qed.

Lemma digits_two m : 10 <= m < 100 -> digits m = 2.
Proof.
  intros B. pose proof (digits_pos m). pose proof (digits_le m 2 ltac:(lia) ltac:(lia)).
  change (10 ^ 2) with 100 in *.
  pose proof (digits_upper m ltac:(lia)) as U.
  destruct (Z.eq_dec (digits m) 1) as [E|E]; [|lia].
  rewrite E in U. change (10 ^ 1) with 10 in U. lia.
Qed.

(** For a value of scale 2 [str] is [str_decimal]. *)
Lemma Decimal_str_cents c : Decimal_str (Decimal_of_cents c) = str_decimal c.
Proof.
  unfold Decimal_str, Decimal_of_cents, str_decimal. cbv zeta. cbn [coefficient exponent].
  pose proof (digits_pos (Z.abs c)) as D.
  replace ((-2 <=? 0) && (-6 <? -2 + digits (Z.abs c))) with true
    by (symmetry; apply andb_true_iff; split; [reflexivity | apply Z.ltb_lt; lia]).
  change (-2 =? 0) with false. cbv iota. change (- -2) with 2. change (10 ^ 2) with 100.
  rewrite <- (N2Z.inj_abs_N c). set (a := Z.abs_N c).
  change 100 with (Z.of_N 100). rewrite <- N2Z.inj_div, <- N2Z.inj_mod, !N2Z.id.
  f_equal. f_equal. cbn [String.append]. f_equal. unfold zero_padded. rewrite N2Z.id.
  pose proof (N.mod_lt a 100 ltac:(discriminate)) as L.
  generalize dependent (a mod 100)%N. intros m L.
  destruct (N.ltb_spec m 10) as [T|T].
  - rewrite digits_one by lia. reflexivity.
  - rewrite digits_two by lia. reflexivity.
Qed.

(** ** Frame conditions follow the structure of the code *)

Section Frames.
Variable R : World -> World -> Prop.
Hypothesis R_refl : forall w, R w w.
Hypothesis R_trans : forall a b c, R a b -> R b c -> R a c.
Hypothesis R_rollback :
  forall w w', R w w' -> R w (mkWorld (db w) (celery w') (uuid_next w')).

Lemma frames_at_bind {A B} (m : M A) (k : A -> M B) w :
  R w (world_of (m w)) ->
  (forall a w1, m w = Ok a w1 -> R w1 (world_of (k a w1))) ->
  R w (world_of (bind m k w)).
Proof.
  intros Hm Hk. unfold bind. destruct (m w) as [a w1|e w1]; cbn in *.
  - eapply R_trans; [exact Hm | apply Hk; reflexivity].
  - exact Hm.
Qed.

Lemma frames_at_atomic {A} (m : M A) w :
  R w (world_of (m w)) -> R w (world_of (atomic m w)).
Proof. unfold atomic. destruct (m w) as [a w1|e w1]; cbn; auto. Qed.

Lemma frames_at_try_except {A} (body : M A) handles handler w :
  R w (world_of (body w)) ->
  (forall e, frames R (handler e)) ->
  R w (world_of (try_except body handles handler w)).
Proof.
  intros Hb Hh. unfold try_except. destruct (body w) as [a w1|e w1]; cbn in *; [exact Hb|].
  destruct (handles e); [|exact Hb].
  eapply R_trans; [exact Hb | apply Hh].
Qed.

Lemma frames_ret {A} (a : A) : frames R (ret a).
Proof. intros w; apply R_refl. Qed.

Lemma frames_raise {A} e : frames R (@raise A e).
Proof. intros w; apply R_refl. Qed.

Lemma frames_bind {A B} (m : M A) (k : A -> M B) :
  frames R m -> (forall a, frames R (k a)) -> frames R (bind m k).
Proof. intros Hm Hk w. apply frames_at_bind; [apply Hm | intros; apply Hk]. Qed.

Lemma frames_atomic {A} (m : M A) : frames R m -> frames R (atomic m).
Proof. intros Hm w. apply frames_at_atomic, Hm. Qed.

Lemma frames_try_except {A} (body : M A) handles handler :
  frames R body -> (forall e, frames R (handler e)) ->
  frames R (try_except body handles handler).
Proof. intros Hb Hh w. apply frames_at_try_except; [apply Hb | exact Hh]. Qed.

Lemma frames_check b e : frames R (check b e).
Proof. destruct b; intros w; apply R_refl. Qed.

(** The code after a check runs only when the check has passed. *)
Lemma frames_check_then {B} b e (k : unit -> M B) :
  (b = true -> frames R (k tt)) -> frames R (bind (check b e) k).
Proof.
  intros Hk w. destruct b; cbn; [apply (Hk eq_refl) | apply R_refl].
Qed.

Lemma frames_query {A} (f : DB -> A) : frames R (query f).
Proof. intros w; apply R_refl. Qed.

Lemma frames_objects_get {A} m (table : DB -> list A) p : frames R (objects_get m table p).
Proof.
  intros w. unfold objects_get.
  destruct (filter p (table (db w))) as [|x [|y r]]; apply R_refl.
Qed.

Lemma frames_for_each {A} (xs : list A) body :
  (forall x, frames R (body x)) -> frames R (for_each xs body).
Proof.
  intros Hb. induction xs as [|x xs IH]; cbn.
  - apply frames_ret.
  - apply frames_bind; auto.
Qed.

Lemma frames_varchar n s : frames R (varchar n s).
Proof. apply frames_check. Qed.

Lemma frames_varchar_opt n o : frames R (varchar_opt n o).
Proof. destruct o; [apply frames_varchar | apply frames_ret]. Qed.

Lemma frames_decimal_19_2 c : frames R (decimal_19_2 c).
Proof. apply frames_check. Qed.

Lemma frames_bigint n : frames R (bigint n).
Proof. apply frames_check. Qed.

Lemma frames_Decimal_sum xs : frames R (Decimal_sum xs).
Proof. intros w. rewrite Decimal_sum_world. apply R_refl. Qed.

Lemma frames_integer n : frames R (integer n).
Proof. apply frames_check. Qed.

Lemma frames_validate_column self f : frames R (validate_column self f).
Proof.
  destruct f; cbn;
    auto using frames_varchar, frames_varchar_opt, frames_integer, frames_ret.
Qed.
End Frames.

(** [frame_with refl trans rollback prim] proves [frames R m] along the
    structure of [m]; [prim] closes the goals for the code that changes
    the world in a way particular to [R]. *)
Ltac frame_with refl trans rollback prim :=
  repeat first
    [ prim
    | match goal with H : _ |- _ => solve [simple apply H] end
    | apply (frames_Decimal_sum _ refl)
    | apply (frames_bind _ trans); [|intros ?]
    | apply (frames_atomic _ rollback)
    | apply (frames_try_except _ trans); [|intros ?]
    | apply (frames_ret _ refl)
    | apply (frames_raise _ refl)
    | apply (frames_check _ refl)
    | apply (frames_query _ refl)
    | apply (frames_objects_get _ refl)
    | apply (frames_varchar _ refl)
    | apply (frames_varchar_opt _ refl)
    | apply (frames_decimal_19_2 _ refl)
    | apply (frames_bigint _ refl)
    | apply (frames_integer _ refl)
    | apply (frames_validate_column _ refl)
    | apply (frames_for_each _ refl trans); intros ?
    | match goal with
      | |- frames _ (if ?b then _ else _) => destruct b
      | |- frames _ (match ?o with Some _ => _ | None => _ end) => destruct o
      | |- frames _ (match ?o with inl _ => _ | inr _ => _ end) => destruct o
      | |- frames _ (let (_, _) := ?p in _) => destruct p
      | |- frames _ (match ?j with process_payout_job _ => _ | _ => _ end) => destruct j
      end ].

(** The definitions of the services and tasks, down to the inserts. *)
Ltac unfold_events :=
  unfold Event_create_event, Event_get_next_sequence_number, Event_objects_create.

Ltac unfold_ledger :=
  unfold LedgerService_create_transaction, Transaction_create_transaction,
    Transaction_objects_create, LedgerEntry_objects_create,
    AccountBalance_rebuild_for_account, AccountBalance_update_or_create.

Ltac unfold_payouts :=
  unfold PayoutService_initiate_payout, PayoutService_process_payout, attempt,
    Payout_get_or_create_pending, Payout_objects_create,
    Payout_mark_processing, Payout_mark_completed, Payout_mark_failed,
    PayoutEvent_objects_create, PayoutSummary_objects_create, Payout_objects_get.

Ltac unfold_tasks :=
  unfold run_task, process_payout_task, initiate_external_payout,
    complete_external_payout, task_handlers.

Ltac unfold_inserts :=
  unfold Event_insert, Transaction_insert, LedgerEntry_insert, AccountBalance_insert,
    AccountBalance_save, Payout_insert, Payout_save, PayoutEvent_insert,
    PayoutSummary_insert, PayoutSummary_update_status.

(** ** Event log *)

Lemma Event_insert_inv e w u w' :
  Event_insert e w = Ok u w' ->
  w' = mkWorld (set_events (fun l => l ++ [e]) (db w)) (celery w) (uuid_next w).
Proof.
  unfold Event_insert, varchar, bigint; intros H.
  repeat (apply bind_check_inv in H; destruct H as [_ H]).
  cbn in H.
  repeat (apply bind_check_inv in H; destruct H as [_ H]).
  cbn in H. inversion H; reflexivity.
Qed.

(** The two ways [create_event] returns: the stored row, or a new row at
    the end of the log. *)
Lemma Event_create_event_inv event_id ty ag agt data md w e w1 :
  Event_create_event event_id ty ag agt data md w = Ok e w1 ->
  (stored_event event_id (db w) = true /\ w1 = w /\ events_with_id event_id w = [e])
  \/
  (stored_event event_id (db w) = false /\
   e = Event.mk (uuid_next w) event_id ty ag agt data (or_dict md) (next_sequence_number (db w)) /\
   w1 = append_event e w).
Proof.
  intros H. apply atomic_inv in H. unfold bind at 1 in H. cbn [query] in H.
  fold (stored_event event_id (db w)) in H.
  destruct (stored_event event_id (db w)) eqn:E.
  - left. split; [reflexivity|]. unfold objects_get in H. unfold events_with_id.
    destruct (filter _ (events (db w))) as [|x [|y r]]; inversion H; subst; auto.
  - right. split; [reflexivity|].
    unfold Event_get_next_sequence_number, Event_objects_create in H.
    cbn in H.
    apply bind_inv in H. destruct H as (u & w2 & H1 & H2).
    apply Event_insert_inv in H1. cbn in H2. inversion H2; subst. clear H2.
    split; reflexivity.
Qed.

Lemma Event_create_event_stored event_id ty ag agt data md w e :
  events_with_id event_id w = [e] ->
  Event_create_event event_id ty ag agt data md w = Ok e w.
Proof.
  unfold events_with_id. intros F.
  unfold Event_create_event, atomic, bind, query, objects_get.
  rewrite (filter_cons_existsb _ _ _ _ F), F. reflexivity.
Qed.

Lemma Event_create_event_In event_id ty ag agt data md w e w1 :
  Event_create_event event_id ty ag agt data md w = Ok e w1 -> In e (events (db w1)).
Proof.
  intros H. apply Event_create_event_inv in H.
  destruct H as [(_ & -> & F) | (_ & _ & ->)].
  - apply filter_singleton_In in F. tauto.
  - cbn. apply in_or_app. right. left. reflexivity.
Qed.

Lemma aggregate_Max_ge l x :
  In x l -> exists m, aggregate_Max l = Some m /\ x <= m.
Proof.
  induction l as [|y l IH]; cbn; [tauto|].
  intros [->|H].
  - destruct (aggregate_Max l) as [m|]; eexists; split; try reflexivity; lia.
  - destruct (IH H) as (m & -> & L). eexists; split; [reflexivity|lia].
Qed.

Lemma or_zero_Some m : or_zero (Some m) = m.
Proof. cbn. destruct (Z.eqb_spec m 0); congruence. Qed.

Lemma next_sequence_number_gt d e0 :
  In e0 (events d) -> Event.sequence_number e0 < next_sequence_number d.
Proof.
  intros H. unfold next_sequence_number.
  destruct (aggregate_Max_ge (map Event.sequence_number (events d)) (Event.sequence_number e0))
    as (m & -> & L).
  - apply in_map, H.
  - rewrite or_zero_Some. lia.
Qed.

Lemma next_sequence_number_unused d :
  existsb (fun r => Event.sequence_number r =? next_sequence_number d) (events d) = false.
Proof.
  destruct (existsb _ _) eqn:E; [|reflexivity].
  apply existsb_exists in E. destruct E as (r & I & Q). apply Z.eqb_eq in Q.
  pose proof (next_sequence_number_gt d r I). lia.
Qed.

Lemma Event_objects_create_ok event_id ty ag agt data md seq w :
  stored_event event_id (db w) = false ->
  (event_id =? "")%string = false ->
  str_length event_id <= 255 -> str_length ty <= 100 ->
  str_length ag <= 255 -> str_length agt <= 100 ->
  0 < seq <= 2 ^ 63 - 1 ->
  existsb (fun r => Event.sequence_number r =? seq) (events (db w)) = false ->
  let e := Event.mk (uuid_next w) event_id ty ag agt data md seq in
  Event_objects_create event_id ty ag agt data md seq w = Ok e (append_event e w).
Proof.
  intros S NE L1 L2 L3 L4 R U e.
  unfold Event_objects_create. unfold bind at 1. cbn [uuid4].
  fold e. unfold bind at 1. unfold Event_insert, varchar, bigint.
  cbn [Event.event_id Event.event_type Event.aggregate_id Event.aggregate_type
       Event.sequence_number e].
  do 4 pass.
  rewrite bind_check_true by (apply andb_true_iff; split; apply Z.leb_le; lia).
  rewrite bind_check_true by (rewrite NE; reflexivity).
  pass. unfold bind at 1. cbn [query db].
  rewrite bind_check_true
    by (fold (stored_event event_id (db w)); rewrite S; reflexivity).
  rewrite bind_check_true by (rewrite U; reflexivity).
  reflexivity.
Qed.

(** A first [Event.create_event] for an id: the row is appended. *)
Lemma Event_create_event_new event_id ty ag agt data md w :
  stored_event event_id (db w) = false ->
  (event_id =? "")%string = false ->
  str_length event_id <= 255 -> str_length ty <= 100 ->
  str_length ag <= 255 -> str_length agt <= 100 ->
  0 < next_sequence_number (db w) <= 2 ^ 63 - 1 ->
  let e := Event.mk (uuid_next w) event_id ty ag agt data (or_dict md)
                    (next_sequence_number (db w)) in
  Event_create_event event_id ty ag agt data md w = Ok e (append_event e w).
Proof.
  intros S NE L1 L2 L3 L4 R e.
  unfold Event_create_event, atomic. unfold bind at 1. cbn [query].
  fold (stored_event event_id (db w)). rewrite S.
  unfold Event_get_next_sequence_number, atomic. cbn [bind query ret].
  fold (next_sequence_number (db w)).
  rewrite (Event_objects_create_ok event_id ty ag agt data (or_dict md) _ w S NE L1 L2 L3 L4 R
             (next_sequence_number_unused (db w))).
  reflexivity.
Qed.

(** C4: [Event.create_event] is idempotent on [event_id].  A first call,
    for an [event_id] the log does not hold yet and with values that fit
    the columns, returns a new record [e] and appends it to the log as the
    one row with that [event_id].  After any call that returned a record
    [e], the log holds exactly one row with that [event_id], and every
    further call with the same [event_id], whatever its other arguments,
    returns the same record [e] and leaves the whole world, hence the log
    and its sequence numbers, as it is. *)
Theorem create_event_idempotent event_id ty ag agt data md w :
  (stored_event event_id (db w) = false ->
   (event_id =? "")%string = false ->
   str_length event_id <= 255 -> str_length ty <= 100 ->
   str_length ag <= 255 -> str_length agt <= 100 ->
   0 < next_sequence_number (db w) <= 2 ^ 63 - 1 ->
   exists e w1,
     Event_create_event event_id ty ag agt data md w = Ok e w1
     /\ Event.event_id e = event_id
     /\ Event.sequence_number e = next_sequence_number (db w)
     /\ events (db w1) = events (db w) ++ [e])
  /\ (forall e w1,
        Event_create_event event_id ty ag agt data md w = Ok e w1 ->
        events_with_id event_id w1 = [e]
        /\ forall ty' ag' agt' data' md',
             Event_create_event event_id ty' ag' agt' data' md' w1 = Ok e w1).
Proof.
  split.
  - intros S NE L1 L2 L3 L4 R.
    eexists. eexists. split; [apply Event_create_event_new; assumption|].
    cbn. auto.
  - intros e w1 H.
    assert (F : events_with_id event_id w1 = [e]).
    { apply Event_create_event_inv in H.
      destruct H as [(_ & -> & F) | (S & E & ->)]; [exact F|].
      unfold events_with_id. cbn [db append_event events set_events]. rewrite filter_app.
      unfold stored_event in S. rewrite (existsb_false_filter _ _ S).
      cbn. rewrite E at 1. cbn. rewrite String.eqb_refl. reflexivity. }
    split; [exact F|].
    intros. apply Event_create_event_stored, F.
Qed.

(** The two calls of the repository's test of idempotency, on an empty
    log: the first appends the event with sequence number 1, the second,
    with other data, returns that event and changes nothing. *)
Lemma create_event_idempotent_witness :
  let w := mkWorld empty_db [] 0 in
  let e := Event.mk 0 "idempotent_event_001" "LEDGER_TRANSACTION_CREATED" "agg_001"
             "Transaction" (JDict [("test", JStr "data1")]) (JDict []) 1 in
  exists w1,
    Event_create_event "idempotent_event_001" "LEDGER_TRANSACTION_CREATED" "agg_001"
                       "Transaction" (JDict [("test", JStr "data1")]) None w
    = Ok e w1
    /\ events (db w1) = [e]
    /\ Event_create_event "idempotent_event_001" "LEDGER_TRANSACTION_CREATED" "agg_001"
                          "Transaction" (JDict [("test", JStr "data2")]) None w1
       = Ok e w1.
Proof.
  intros w e.
  pose proof (create_event_idempotent "idempotent_event_001" "LEDGER_TRANSACTION_CREATED"
                "agg_001" "Transaction" (JDict [("test", JStr "data1")]) None w) as [New Again].
  destruct New as (e' & w1 & H & _ & _ & L);
    [ reflexivity | reflexivity | vm_compute; discriminate | vm_compute; discriminate
    | vm_compute; discriminate | vm_compute; discriminate
    | split; [reflexivity | vm_compute; discriminate] | ].
  assert (E : e' = e).
  { pose proof H as H'. vm_compute in H'. inversion H'. reflexivity. }
  subst e'. exists w1. split; [exact H|]. split; [exact L|].
  apply (proj2 (Again e w1 H)).
Defined.

(** C5: sequence numbers are strictly monotonic.  Take a call of
    [Event.create_event] that returned [a], any later world [w2] whose log
    still holds what the log held after that call, and a call in [w2] for
    an [event_id] not yet in the log, which returns [b].  Then [b] is
    appended to the log, its sequence number is strictly greater than that
    of [a], and strictly greater than every sequence number stored in
    [w2]. *)
Theorem sequence_numbers_strictly_monotonic
    ida tya aga agta dataa mda w a w1
    idb tyb agb agtb datab mdb w2 b w3 :
  Event_create_event ida tya aga agta dataa mda w = Ok a w1 ->
  incl (events (db w1)) (events (db w2)) ->
  stored_event idb (db w2) = false ->
  Event_create_event idb tyb agb agtb datab mdb w2 = Ok b w3 ->
  Event.sequence_number a < Event.sequence_number b
  /\ (forall e0, In e0 (events (db w2)) -> Event.sequence_number e0 < Event.sequence_number b)
  /\ events (db w3) = events (db w2) ++ [b].
Proof.
  intros Ha Hincl Hfresh Hb.
  apply Event_create_event_inv in Hb.
  destruct Hb as [(S & _) | (_ & E & ->)]; [congruence|].
  assert (G : forall e0, In e0 (events (db w2)) ->
                         Event.sequence_number e0 < Event.sequence_number b).
  { intros e0 I. rewrite E. cbn. apply next_sequence_number_gt, I. }
  repeat split.
  - apply G, Hincl. eapply Event_create_event_In, Ha.
  - exact G.
Qed.

Lemma sequence_numbers_strictly_monotonic_witness :
  let w := mkWorld empty_db [] 0 in
  let a := Event.mk 0 "event_001" "LEDGER_TRANSACTION_CREATED" "agg_001" "Transaction"
                    (JDict []) (JDict []) 1 in
  let b := Event.mk 1 "event_002" "PAYOUT_CREATED" "agg_002" "Payout"
                    (JDict []) (JDict []) 2 in
  Event.sequence_number a < Event.sequence_number b
  /\ (forall e0, In e0 (events (db (append_event a w))) ->
                 Event.sequence_number e0 < Event.sequence_number b)
  /\ events (db (append_event b (append_event a w))) = events (db (append_event a w)) ++ [b].
Proof.
  intros w a b.
  apply (sequence_numbers_strictly_monotonic
           "event_001" "LEDGER_TRANSACTION_CREATED" "agg_001" "Transaction" (JDict []) None
           w a (append_event a w)
           "event_002" "PAYOUT_CREATED" "agg_002" "Payout" (JDict []) None
           (append_event a w) b (append_event b (append_event a w))).
  - vm_compute. reflexivity.
  - intros x H. exact H.
  - vm_compute. reflexivity.
  - vm_compute. reflexivity.
Defined.

(** No operation removes or rewrites a row of the log. *)





Lemma log_extended_incl w w' : log_extended w w' -> incl (events (db w)) (events (db w')).
Proof. intros [m E] x I. rewrite E. apply in_or_app. left. exact I. Qed.













(** ** Ledger *)

Lemma ledger_same_refl w : ledger_same w w.
Proof. unfold ledger_same; auto. Qed.

Lemma ledger_same_trans a b c : ledger_same a b -> ledger_same b c -> ledger_same a c.
Proof. unfold ledger_same; intros (?&?&?) (?&?&?); repeat split; try congruence; lia. Qed.

Lemma ledger_same_rollback w w' :
  ledger_same w w' -> ledger_same w (mkWorld (db w) (celery w') (uuid_next w')).
Proof. unfold ledger_same; cbn; intros (?&?&?); auto. Qed.

Lemma ledger_same_uuid4 : frames ledger_same uuid4.
Proof. intros w; unfold ledger_same; cbn; auto. Qed.

Lemma ledger_same_delay t : frames ledger_same (delay t).
Proof. intros w; unfold ledger_same; cbn; auto. Qed.

Lemma ledger_same_retry {A} self n e : frames ledger_same (@retry A self n e).
Proof.
  intros w; unfold retry. destruct (Nat.ltb _ _); unfold ledger_same; cbn; auto.
Qed.

Lemma ledger_same_write f :
  (forall d, ledger_transactions (f d) = ledger_transactions d) ->
  (forall d, ledger_entries (f d) = ledger_entries d) ->
  frames ledger_same (write f).
Proof. intros H1 H2 w; unfold ledger_same; cbn; auto. Qed.

Ltac ledger_prim :=
  first [ apply ledger_same_uuid4
        | apply ledger_same_delay
        | apply ledger_same_retry
        | apply ledger_same_write; reflexivity ].

Ltac ledger_frame :=
  frame_with ledger_same_refl ledger_same_trans ledger_same_rollback ledger_prim.

Lemma ledger_same_Event_create_event event_id ty ag agt data md :
  frames ledger_same (Event_create_event event_id ty ag agt data md).
Proof. unfold_events. unfold_inserts. ledger_frame. Qed.

Lemma ledger_same_rebuild_for_account account :
  frames ledger_same (AccountBalance_rebuild_for_account account).
Proof. unfold_ledger. unfold_inserts. ledger_frame. Qed.

Lemma Transaction_insert_inv t w u w' :
  Transaction_insert t w = Ok u w' ->
  w' = mkWorld (set_ledger_transactions (fun l => l ++ [t]) (db w)) (celery w) (uuid_next w).
Proof.
  unfold Transaction_insert, varchar; intros H.
  repeat (apply bind_check_inv in H; destruct H as [_ H]).
  cbn in H.
  repeat (apply bind_check_inv in H; destruct H as [_ H]).
  cbn in H. inversion H; reflexivity.
Qed.

Lemma LedgerEntry_insert_inv e w u w' :
  LedgerEntry_insert e w = Ok u w' ->
  0 <= LedgerEntry.amount e
  /\ w' = mkWorld (set_ledger_entries (fun l => l ++ [e]) (db w)) (celery w) (uuid_next w).
Proof.
  unfold LedgerEntry_insert, varchar, decimal_19_2; intros H.
  do 2 (apply bind_check_inv in H; destruct H as [_ H]).
  apply bind_check_inv in H; destruct H as [P H].
  cbn in H.
  repeat (apply bind_check_inv in H; destruct H as [_ H]; cbn in H).
  inversion H. split; [lia | reflexivity].
Qed.

Lemma LedgerEntry_objects_create_range transaction account amount ty desc w e w' :
  LedgerEntry_objects_create transaction account amount ty desc w = Ok e w' ->
  Z.abs amount < 10 ^ 19.
Proof.
  unfold LedgerEntry_objects_create, LedgerEntry_insert, decimal_19_2. intros H.
  apply bind_inv in H. destruct H as (u & w1 & _ & H).
  apply bind_inv in H. destruct H as (? & w2 & H & _).
  apply bind_check_inv in H. destruct H as [P _].
  cbn [LedgerEntry.amount] in P. apply Z.ltb_lt, P.
Qed.

Lemma LedgerEntry_objects_create_inv transaction account amount ty desc w e w' :
  LedgerEntry_objects_create transaction account amount ty desc w = Ok e w' ->
  0 <= amount
  /\ e = LedgerEntry.mk (uuid_next w) transaction account amount ty desc
  /\ w' = mkWorld (set_ledger_entries (fun l => l ++ [e]) (db w)) (celery w) (S (uuid_next w)).
Proof.
  unfold LedgerEntry_objects_create. intros H.
  apply bind_inv in H. destruct H as (u & w1 & U & H). cbn in U. inversion U; subst u w1; clear U.
  apply bind_inv in H. destruct H as (? & w1 & H & E). cbn in E. inversion E; subst; clear E.
  apply LedgerEntry_insert_inv in H. destruct H as [P ->]. auto.
Qed.

(** What a successful [Transaction.create_transaction] was given and what
    it wrote: one transaction row and the two entry rows. *)
Lemma Transaction_create_transaction_inv tid desc eds md w t w1 :
  Transaction_create_transaction tid desc eds md w = Ok t w1 ->
  exists d1 d2,
    eds = [d1; d2]
    /\ ed_amount d1 + ed_amount d2 = 0
    /\ 0 <= ed_amount d1 /\ 0 <= ed_amount d2
    /\ t = Transaction.mk (uuid_next w) tid desc "COMPLETED" (or_dict md)
    /\ w1 = mkWorld
              (set_ledger_entries
                 (fun l => l ++ [new_entry (1 + uuid_next w) (uuid_next w) d1;
                                 new_entry (2 + uuid_next w) (uuid_next w) d2])
                 (set_ledger_transactions (fun l => l ++ [t]) (db w)))
              (celery w) (3 + uuid_next w).
Proof.
  unfold Transaction_create_transaction. intros H.
  destruct eds as [|d1 [|d2 [|d3 eds]]]; try discriminate H.
  exists d1, d2. cbn [List.length Nat.eqb negb map] in H.
  apply bind_inv in H. destruct H as (total & w0 & S & H).
  pose proof (Decimal_sum_Ok _ _ _ _ S); subst w0.
  destruct (Z.eqb_spec (coefficient total) 0) as [Z|Z]; [|discriminate H].
  cbn [negb] in H.
  apply bind_inv in H. destruct H as (t' & w' & H & E). cbn in E. inversion E; subst t' w'. clear E.
  apply atomic_inv in H.
  apply bind_inv in H. destruct H as (t' & w2 & H1 & H).
  unfold Transaction_objects_create in H1.
  apply bind_inv in H1. destruct H1 as (u & w3 & U & H1). cbn in U. inversion U; subst u w3; clear U.
  apply bind_inv in H1. destruct H1 as (? & w3 & H1 & E). cbn in E. inversion E; subst t' w3; clear E.
  apply Transaction_insert_inv in H1. cbn in H1.
  apply bind_inv in H. destruct H as (? & w3 & H2 & H).
  cbn [for_each] in H2.
  apply bind_inv in H2. destruct H2 as (? & w4 & H2 & H3).
  apply bind_inv in H2. destruct H2 as (e1 & w5 & H2 & E). cbn in E. inversion E; subst w5; clear E.
  pose proof (LedgerEntry_objects_create_range _ _ _ _ _ _ _ _ H2) as R1.
  apply LedgerEntry_objects_create_inv in H2. destruct H2 as (P1 & E1 & H2).
  apply bind_inv in H3. destruct H3 as (? & w5 & H3 & E). cbn in E. inversion E; subst w5; clear E.
  apply bind_inv in H3. destruct H3 as (e2 & w5 & H3 & E). cbn in E. inversion E; subst w5; clear E.
  pose proof (LedgerEntry_objects_create_range _ _ _ _ _ _ _ _ H3) as R2.
  apply LedgerEntry_objects_create_inv in H3. destruct H3 as (P2 & E2 & H3).
  apply bind_inv in H. destruct H as (bal & w5 & Q & H). cbn in Q. inversion Q; subst w5. clear Q.
  destruct (negb (bal =? 0)); [discriminate H|]. cbn in H. inversion H; subst t.
  assert (Zero : ed_amount d1 + ed_amount d2 = 0).
  { rewrite Decimal_sum_exact in S.
    - inversion S; subst total. exact Z.
    - change (10 ^ 19) with 10000000000000000000 in R1.
      change (10 ^ 28) with 10000000000000000000000000000. lia.
    - change (10 ^ 19) with 10000000000000000000 in R1, R2.
      change (10 ^ 28) with 10000000000000000000000000000. lia. }
  clear S R1 R2 Z total.
  subst. cbn in *.
  repeat split; try assumption.
  unfold set_ledger_entries, set_ledger_transactions, new_entry; cbn.
  rewrite <- app_assoc. reflexivity.
Qed.

Lemma balanced_spec pk d :
  balanced pk d = true <->
  List.length (entries_of pk d) = 2%nat
  /\ sum (map LedgerEntry.amount (entries_of pk d)) = 0.
Proof.
  unfold balanced. rewrite andb_true_iff, Nat.eqb_eq, Z.eqb_eq. tauto.
Qed.

Lemma ledger_ok_spec w :
  ledger_ok w <->
  (forall t, In t (ledger_transactions (db w)) -> (Transaction.id t < uuid_next w)%nat)
  /\ (forall e, In e (ledger_entries (db w)) -> (LedgerEntry.transaction e < uuid_next w)%nat)
  /\ (forall t, In t (ledger_transactions (db w)) -> balanced (Transaction.id t) (db w) = true).
Proof.
  unfold ledger_ok, ledger_okb. rewrite !andb_true_iff, !forallb_forall.
  split; intros ((H1 & H2) & H3) || intros (H1 & H2 & H3); repeat split; intros x I.
  - apply Nat.ltb_lt, H1, I.
  - apply Nat.ltb_lt, H2, I.
  - apply H3, I.
  - apply Nat.ltb_lt, H1, I.
  - apply Nat.ltb_lt, H2, I.
  - apply H3, I.
Qed.

Lemma entries_of_ext pk d d' :
  ledger_entries d' = ledger_entries d -> entries_of pk d' = entries_of pk d.
Proof. unfold entries_of; intros ->; reflexivity. Qed.

Lemma balanced_ext pk d d' :
  ledger_entries d' = ledger_entries d -> balanced pk d' = balanced pk d.
Proof. unfold balanced; intros E; rewrite (entries_of_ext _ _ _ E); reflexivity. Qed.

(** The ledger invariant is a property of the ledger tables alone. *)
Lemma ledger_ok_same w w' : ledger_same w w' -> ledger_ok w -> ledger_ok w'.
Proof.
  intros (Et & Ee & U). rewrite !ledger_ok_spec. intros (H1 & H2 & H3).
  rewrite Et, Ee. repeat split; intros x I.
  - specialize (H1 x I); lia.
  - specialize (H2 x I); lia.
  - rewrite (balanced_ext _ _ _ Ee). apply H3, I.
Qed.

Lemma entries_of_fresh w pk :
  (forall e, In e (ledger_entries (db w)) -> (LedgerEntry.transaction e < uuid_next w)%nat) ->
  (uuid_next w <= pk)%nat ->
  entries_of pk (db w) = [].
Proof.
  intros H L. unfold entries_of. apply existsb_false_filter.
  destruct (existsb _ _) eqn:E; [|reflexivity].
  apply existsb_exists in E. destruct E as (e & I & Q).
  apply Nat.eqb_eq in Q. specialize (H e I). lia.
Qed.

(** What a successful [Transaction.create_transaction] leaves behind. *)
Lemma Transaction_create_transaction_committed tid desc eds md w t w1 :
  ledger_ok w ->
  Transaction_create_transaction tid desc eds md w = Ok t w1 ->
  committed t w1 /\ ledger_ok w1.
Proof.
  intros OK H.
  apply Transaction_create_transaction_inv in H.
  destruct H as (d1 & d2 & -> & Z & P1 & P2 & Et & ->).
  pose proof (proj1 (ledger_ok_spec w) OK) as (H1 & H2 & H3).
  assert (New : entries_of (Transaction.id t)
                  (set_ledger_entries
                     (fun l => l ++ [new_entry (1 + uuid_next w) (uuid_next w) d1;
                                     new_entry (2 + uuid_next w) (uuid_next w) d2])
                     (set_ledger_transactions (fun l => l ++ [t]) (db w)))
                = [new_entry (1 + uuid_next w) (uuid_next w) d1;
                   new_entry (2 + uuid_next w) (uuid_next w) d2]).
  { unfold entries_of; cbn [ledger_entries set_ledger_entries set_ledger_transactions].
    rewrite filter_app. fold (entries_of (Transaction.id t) (db w)).
    rewrite (entries_of_fresh w (Transaction.id t) H2) by (rewrite Et; cbn; lia).
    rewrite Et; cbn. rewrite Nat.eqb_refl. reflexivity. }
  unfold committed. cbn [db]. rewrite New. repeat split.
  - cbn. apply in_or_app; right; left; reflexivity.
  - cbn [map]. rewrite sum_pair. exact Z.
  - apply ledger_ok_spec. cbn [db uuid_next ledger_transactions ledger_entries
                               set_ledger_entries set_ledger_transactions].
    repeat split.
    + intros x I. apply in_app_or in I. destruct I as [I|[<-|[]]].
      * specialize (H1 x I); lia.
      * rewrite Et; cbn; lia.
    + intros x I. apply in_app_or in I. destruct I as [I|[<-|[<-|[]]]]; cbn; try lia.
      specialize (H2 x I); lia.
    + intros x I. apply in_app_or in I. destruct I as [I|[<-|[]]].
      * specialize (H3 x I). specialize (H1 x I).
        rewrite <- H3. unfold balanced, entries_of.
        cbn [ledger_entries set_ledger_entries set_ledger_transactions].
        rewrite filter_app. cbn [filter new_entry LedgerEntry.transaction].
        replace (Nat.eqb (uuid_next w) (Transaction.id x)) with false
          by (symmetry; apply Nat.eqb_neq; lia).
        rewrite app_nil_r. reflexivity.
      * apply balanced_spec. rewrite New. cbn [map List.length]. rewrite sum_pair. auto.
Qed.

(** [LedgerService.create_transaction] commits what
    [Transaction.create_transaction] does, and leaves the ledger tables
    alone after it. *)
Lemma LedgerService_create_transaction_inv tid desc eds md w t w2 :
  LedgerService_create_transaction tid desc eds md w = Ok t w2 ->
  exists w1,
    Transaction_create_transaction tid desc eds md w = Ok t w1 /\ ledger_same w1 w2.
Proof.
  intros H. apply atomic_inv in H.
  apply bind_inv in H. destruct H as (t' & w1 & H1 & H).
  exists w1.
  assert (S : ledger_same w1 w2).
  { match type of H with
    | ?m w1 = _ => assert (F : frames ledger_same m)
    end.
    { pose proof ledger_same_Event_create_event.
      pose proof ledger_same_rebuild_for_account.
      ledger_frame. }
    specialize (F w1). rewrite H in F. exact F. }
  assert (t' = t).
  { repeat (apply bind_inv in H; destruct H as (? & ? & _ & H)).
    cbn in H. inversion H; reflexivity. }
  subst t'. split; assumption.
Qed.

(** What [create_transaction] raises before it has written anything. *)
Lemma Transaction_create_transaction_early tid desc eds md w e :
  Transaction_create_transaction tid desc eds md w = Raise e w ->
  LedgerService_create_transaction tid desc eds md w = Raise e w.
Proof.
  intros H. unfold LedgerService_create_transaction, atomic. unfold bind at 1.
  rewrite H. rewrite world_eta. reflexivity.
Qed.

Lemma Transaction_create_transaction_count tid desc eds md w :
  List.length eds <> 2%nat ->
  exists e,
    exn_cls e = ValueError
    /\ Transaction_create_transaction tid desc eds md w = Raise e w
    /\ LedgerService_create_transaction tid desc eds md w = Raise e w.
Proof.
  intros L.
  assert (H : Transaction_create_transaction tid desc eds md w
              = Raise (Exn ValueError
                         "Double-entry ledger requires exactly 2 entries per transaction") w).
  { unfold Transaction_create_transaction.
    destruct (Nat.eqb_spec (List.length eds) 2) as [L'|L']; [congruence | reflexivity]. }
  eexists. split; [|split; [exact H | apply Transaction_create_transaction_early, H]].
  reflexivity.
Qed.

(** Two amounts of at most 28 digits that do not cancel: the zero-sum
    test raises, with the rounded total in the message. *)
Lemma Transaction_create_transaction_unbalanced tid desc d1 d2 md w :
  Z.abs (ed_amount d1) < 10 ^ 28 -> Z.abs (ed_amount d2) < 10 ^ 28 ->
  ed_amount d1 + ed_amount d2 <> 0 ->
  exists total,
    Decimal_sum [Decimal_of_cents (ed_amount d1); Decimal_of_cents (ed_amount d2)] w
    = Ok total w
    /\ coefficient total <> 0
    /\ Transaction_create_transaction tid desc [d1; d2] md w
       = Raise (Exn ValueError ("Transaction entries must balance to zero. Total: "
                                  +++ Decimal_str total)) w.
Proof.
  intros B1 B2 N.
  destruct (Decimal_sum_nonzero _ _ w B1 B2 N) as (total & S & C).
  exists total. split; [exact S|]. split; [exact C|].
  unfold Transaction_create_transaction. cbn [List.length Nat.eqb negb map].
  unfold bind at 1. rewrite S.
  destruct (Z.eqb_spec (coefficient total) 0) as [Z|Z]; [contradiction | reflexivity].
Qed.

(** A call that raises leaves the database as it was. *)
Lemma Transaction_create_transaction_Raise_db tid desc eds md w e w' :
  Transaction_create_transaction tid desc eds md w = Raise e w' -> db w' = db w.
Proof.
  unfold Transaction_create_transaction.
  destruct (negb (Nat.eqb (List.length eds) 2)); [intros H; inversion H; reflexivity|].
  unfold bind at 1.
  destruct (Decimal_sum _ w) as [total w0|e0 w0] eqn:S.
  - apply Decimal_sum_Ok in S. subst w0.
    destruct (negb (coefficient total =? 0)); [intros H; inversion H; reflexivity|].
    unfold bind at 1.
    match goal with
    | |- match atomic ?m w with _ => _ end = _ -> _ => destruct (atomic m w) eqn:A
    end; [discriminate|].
    intros H. inversion H; subst. eapply atomic_Raise_db, A.
  - apply Decimal_sum_Raise in S. subst w0. intros H. inversion H; reflexivity.
Qed.

(** Entries that do not cancel are never committed, whatever their size:
    the call raises and the database is as it was. *)
Lemma Transaction_create_transaction_fails tid desc eds md w :
  List.length eds <> 2%nat \/ sum (map ed_amount eds) <> 0 ->
  (exists e w', Transaction_create_transaction tid desc eds md w = Raise e w'
                /\ db w' = db w)
  /\ (exists e w', LedgerService_create_transaction tid desc eds md w = Raise e w'
                   /\ db w' = db w).
Proof.
  intros H.
  assert (T : forall t w1, Transaction_create_transaction tid desc eds md w <> Ok t w1).
  { intros t w1 E. apply Transaction_create_transaction_inv in E.
    destruct E as (d1 & d2 & -> & Z & _). destruct H as [H|H].
    - apply H. reflexivity.
    - apply H. cbn [map]. rewrite sum_pair. exact Z. }
  split.
  - destruct (Transaction_create_transaction tid desc eds md w) as [t w1|e w'] eqn:E.
    + exfalso. apply (T t w1). reflexivity.
    + exists e, w'. split; [reflexivity|].
      eapply Transaction_create_transaction_Raise_db, E.
  - destruct (LedgerService_create_transaction tid desc eds md w) as [t w2|e w'] eqn:E.
    + exfalso. apply LedgerService_create_transaction_inv in E.
      destruct E as (w1 & E & _). apply (T t w1), E.
    + exists e, w'. split; [reflexivity|]. eapply atomic_Raise_db, E.
Qed.

(** C1: for every transaction committed through
    [Transaction.create_transaction], and hence through
    [LedgerService.create_transaction], exactly two [LedgerEntry] rows
    exist and their amounts sum to zero; the same holds for every
    transaction stored before, so the ledger invariant is kept.  The call
    fails, and leaves the database as it is, whenever the entries supplied
    number other than two or do not sum to zero.  The error is the
    [ValueError] of the entry count or of the zero-sum test, raised before
    anything is written, when the count is wrong or the amounts have at
    most 28 digits, the precision of the decimal context the sum is taken
    in. *)
Theorem double_entry_invariant tid desc eds md w :
  ledger_ok w ->
  (forall t w1,
      Transaction_create_transaction tid desc eds md w = Ok t w1 ->
      committed t w1 /\ ledger_ok w1)
  /\ (forall t w1,
      LedgerService_create_transaction tid desc eds md w = Ok t w1 ->
      committed t w1 /\ ledger_ok w1)
  /\ (List.length eds <> 2%nat \/ sum (map ed_amount eds) <> 0 ->
      (exists e w',
          Transaction_create_transaction tid desc eds md w = Raise e w' /\ db w' = db w)
      /\ (exists e w',
          LedgerService_create_transaction tid desc eds md w = Raise e w' /\ db w' = db w))
  /\ (List.length eds <> 2%nat
      \/ (sum (map ed_amount eds) <> 0
          /\ Forall (fun d => Z.abs (ed_amount d) < 10 ^ 28) eds) ->
      exists e,
        exn_cls e = ValueError
        /\ Transaction_create_transaction tid desc eds md w = Raise e w
        /\ LedgerService_create_transaction tid desc eds md w = Raise e w).
Proof.
  intros OK. split; [|split; [|split]].
  - intros t w1 H. eapply Transaction_create_transaction_committed; eauto.
  - intros t w2 H.
    apply LedgerService_create_transaction_inv in H. destruct H as (w1 & H & S).
    destruct (Transaction_create_transaction_committed _ _ _ _ _ _ _ OK H) as ((A & B & C) & D).
    pose proof S as (Et & Ee & _).
    unfold committed. rewrite Et, (entries_of_ext _ _ _ Ee).
    repeat split; auto. eapply ledger_ok_same; eauto.
  - apply Transaction_create_transaction_fails.
  - intros H.
    destruct (Nat.eq_dec (List.length eds) 2) as [L|L];
      [|apply Transaction_create_transaction_count, L].
    destruct H as [H|[N B]]; [contradiction|].
    destruct eds as [|d1 [|d2 [|d3 eds]]]; try discriminate L.
    cbn [map] in N. rewrite sum_pair in N.
    inversion B as [|? ? B1 B']; subst. inversion B' as [|? ? B2 _]; subst.
    destruct (Transaction_create_transaction_unbalanced tid desc d1 d2 md w B1 B2 N)
      as (total & _ & _ & E).
    eexists. split; [|split; [exact E | apply Transaction_create_transaction_early, E]].
    reflexivity.
Qed.

Lemma double_entry_invariant_witness :
  let eds := [ mkEntryData 0 0 "DEBIT" None; mkEntryData 1 0 "CREDIT" None ] in
  let t := Transaction.mk 2 "test_txn_001" "Test transaction" "COMPLETED" (JDict []) in
  exists w1,
    Transaction_create_transaction "test_txn_001" "Test transaction" eds None w_operational
    = Ok t w1
    /\ committed t w1 /\ ledger_ok w1.
Proof.
  intros eds t. eexists. split.
  - vm_compute. reflexivity.
  - apply (proj1 (double_entry_invariant "test_txn_001" "Test transaction" eds None
                    w_operational ltac:(vm_compute; reflexivity))).
    vm_compute. reflexivity.
Defined.

(** Two amounts whose sum is not zero and is not rounded: the service
    raises the [ValueError] that reports the sum. *)
Lemma LedgerService_create_transaction_unbalanced tid desc d1 d2 md w :
  Z.abs (ed_amount d1) < 10 ^ 28 -> Z.abs (ed_amount d1 + ed_amount d2) < 10 ^ 28 ->
  ed_amount d1 + ed_amount d2 <> 0 ->
  LedgerService_create_transaction tid desc [d1; d2] md w
  = Raise (Exn ValueError ("Transaction entries must balance to zero. Total: "
                             +++ str_decimal (ed_amount d1 + ed_amount d2))) w.
Proof.
  intros B1 B N. apply Transaction_create_transaction_early.
  unfold Transaction_create_transaction. cbn [List.length Nat.eqb negb map].
  unfold bind at 1. rewrite (Decimal_sum_exact _ _ w B1 B).
  cbn [Decimal_of_cents coefficient].
  destruct (Z.eqb_spec (ed_amount d1 + ed_amount d2) 0) as [Z|Z]; [contradiction|].
  cbn [negb]. fold (Decimal_of_cents (ed_amount d1 + ed_amount d2)).
  rewrite Decimal_str_cents. reflexivity.
Qed.


(** C6: posting two entries whose amounts do not sum to zero is rejected
    atomically.  Whatever the amounts, [LedgerService.create_transaction]
    raises and leaves the database as it was: no [Transaction] row, no
    [LedgerEntry] row and no event has been added.  For amounts of at most
    28 digits, the precision of the decimal context the sum is taken in,
    the error is the [ValueError] of the zero-sum test, raised before
    anything is written, and its message reports the total: the sum
    itself when that has at most 28 digits, the sum rounded to 28 digits
    otherwise. *)
Theorem unbalanced_transaction_rejected tid desc d1 d2 md w :
  ed_amount d1 + ed_amount d2 <> 0 ->
  (exists e w',
      LedgerService_create_transaction tid desc [d1; d2] md w = Raise e w'
      /\ ledger_transactions (db w') = ledger_transactions (db w)
      /\ ledger_entries (db w') = ledger_entries (db w)
      /\ events (db w') = events (db w))
  /\ (Z.abs (ed_amount d1) < 10 ^ 28 -> Z.abs (ed_amount d2) < 10 ^ 28 ->
      exists total,
        Decimal_sum [Decimal_of_cents (ed_amount d1); Decimal_of_cents (ed_amount d2)] w
        = Ok total w
        /\ coefficient total <> 0
        /\ LedgerService_create_transaction tid desc [d1; d2] md w
           = Raise (Exn ValueError ("Transaction entries must balance to zero. Total: "
                                      +++ Decimal_str total)) w)
  /\ (Z.abs (ed_amount d1) < 10 ^ 28 -> Z.abs (ed_amount d1 + ed_amount d2) < 10 ^ 28 ->
      LedgerService_create_transaction tid desc [d1; d2] md w
      = Raise (Exn ValueError ("Transaction entries must balance to zero. Total: "
                                 +++ str_decimal (ed_amount d1 + ed_amount d2))) w).
Proof.
  intros N. split; [|split].
  - destruct (Transaction_create_transaction_fails tid desc [d1; d2] md w) as [_ (e & w' & E & D)].
    { right. cbn [map]. rewrite sum_pair. exact N. }
    exists e, w'. rewrite D. auto.
  - intros B1 B2.
    destruct (Transaction_create_transaction_unbalanced tid desc d1 d2 md w B1 B2 N)
      as (total & S & C & E).
    exists total. split; [exact S|]. split; [exact C|].
    apply Transaction_create_transaction_early, E.
  - intros B1 B. apply LedgerService_create_transaction_unbalanced; assumption.
Qed.

Lemma unbalanced_transaction_rejected_witness :
  LedgerService_create_transaction "t_bad" "desc"
    [ mkEntryData 0 10000 "DEBIT" None; mkEntryData 1 (-5000) "CREDIT" None ] None w_operational
  = Raise (Exn ValueError "Transaction entries must balance to zero. Total: 50.00")
          w_operational.
Proof.
  exact (proj2 (proj2 (unbalanced_transaction_rejected "t_bad" "desc"
                         (mkEntryData 0 10000 "DEBIT" None)
                         (mkEntryData 1 (-5000) "CREDIT" None)
                         None w_operational ltac:(cbn; lia)))
           ltac:(vm_compute; reflexivity) ltac:(vm_compute; reflexivity)).
Defined.

(** Beyond the precision of the context the zero-sum test can pass on
    amounts that do not cancel: 10000000000000000000000000000.01 is
    rounded to 1.000000000000000000000000000E+28 as it enters the sum,
    which -10000000000000000000000000000.00 then brings to zero.  The
    posting is still not committed: the first entry does not fit its
    column. *)
Lemma rounded_sum_passes_the_zero_sum_test :
  let eds := [ mkEntryData 0 1000000000000000000000000000001 "DEBIT" None;
               mkEntryData 1 (-1000000000000000000000000000000) "CREDIT" None ] in
  Decimal_sum (map (fun entry => Decimal_of_cents (ed_amount entry)) eds) w_operational
  = Ok (mkDec 0 (-2)) w_operational
  /\ exists w',
       LedgerService_create_transaction "t_big" "desc" eds None w_operational
       = Raise (Exn InvalidOperation "[<class 'decimal.InvalidOperation'>]") w'
       /\ db w' = db w_operational.
Proof.
  intros eds. split; [vm_compute; reflexivity|].
  eexists. split; vm_compute; reflexivity.
Qed.

(** ** Stored amounts *)

Lemma non_negative_kept_refl w : non_negative_kept w w.
Proof. unfold non_negative_kept; auto. Qed.

Lemma non_negative_kept_trans a b c :
  non_negative_kept a b -> non_negative_kept b c -> non_negative_kept a c.
Proof. unfold non_negative_kept; auto. Qed.

Lemma non_negative_kept_rollback w w' :
  non_negative_kept w w' -> non_negative_kept w (mkWorld (db w) (celery w') (uuid_next w')).
Proof. unfold non_negative_kept, entries_non_negative; cbn; auto. Qed.

Lemma non_negative_uuid4 : frames non_negative_kept uuid4.
Proof. intros w; unfold non_negative_kept; cbn; auto. Qed.

Lemma non_negative_delay t : frames non_negative_kept (delay t).
Proof. intros w; unfold non_negative_kept; cbn; auto. Qed.

Lemma non_negative_retry {A} self n e : frames non_negative_kept (@retry A self n e).
Proof.
  intros w; unfold retry. destruct (Nat.ltb _ _); unfold non_negative_kept; cbn; auto.
Qed.

Lemma non_negative_write f :
  (forall d, ledger_entries (f d) = ledger_entries d) ->
  frames non_negative_kept (write f).
Proof.
  intros H w. unfold non_negative_kept, entries_non_negative; cbn. rewrite H. auto.
Qed.

(** The entry table is written in one place, behind the check constraint. *)
Lemma non_negative_LedgerEntry_insert e : frames non_negative_kept (LedgerEntry_insert e).
Proof.
  unfold LedgerEntry_insert.
  apply (frames_bind _ non_negative_kept_trans);
    [apply (frames_decimal_19_2 _ non_negative_kept_refl)|intros _].
  apply (frames_bind _ non_negative_kept_trans);
    [apply (frames_varchar _ non_negative_kept_refl)|intros _].
  apply (frames_check_then _ non_negative_kept_refl). intros P.
  apply (frames_bind _ non_negative_kept_trans);
    [apply (frames_query _ non_negative_kept_refl)|intros ?].
  apply (frames_bind _ non_negative_kept_trans);
    [apply (frames_check _ non_negative_kept_refl)|intros _].
  apply (frames_bind _ non_negative_kept_trans);
    [apply (frames_query _ non_negative_kept_refl)|intros ?].
  apply (frames_bind _ non_negative_kept_trans);
    [apply (frames_check _ non_negative_kept_refl)|intros _].
  intros w. unfold non_negative_kept, entries_non_negative. cbn. intros F.
  rewrite forallb_app, F. cbn. rewrite P. reflexivity.
Qed.

Ltac non_negative_prim :=
  first [ apply non_negative_LedgerEntry_insert
        | apply non_negative_uuid4
        | apply non_negative_delay
        | apply non_negative_retry
        | apply non_negative_write; reflexivity ].

Ltac non_negative_frame :=
  frame_with non_negative_kept_refl non_negative_kept_trans non_negative_kept_rollback
             non_negative_prim.

Ltac unfold_inserts_but_entries :=
  unfold Event_insert, Transaction_insert, AccountBalance_insert,
    AccountBalance_save, Payout_insert, Payout_save, PayoutEvent_insert,
    PayoutSummary_insert, PayoutSummary_update_status.

Lemma non_negative_Transaction_create_transaction tid desc eds md :
  frames non_negative_kept (Transaction_create_transaction tid desc eds md).
Proof. unfold_ledger. unfold_inserts_but_entries. non_negative_frame. Qed.

Lemma non_negative_LedgerService_create_transaction tid desc eds md :
  frames non_negative_kept (LedgerService_create_transaction tid desc eds md).
Proof. unfold_ledger. unfold_events. unfold_inserts_but_entries. non_negative_frame. Qed.

Lemma non_negative_initiate_payout key amount ra rn de md :
  frames non_negative_kept (PayoutService_initiate_payout key amount ra rn de md).
Proof. unfold_payouts. unfold_events. unfold_inserts_but_entries. non_negative_frame. Qed.

Lemma non_negative_run_task job : frames non_negative_kept (run_task job).
Proof.
  pose proof non_negative_LedgerService_create_transaction.
  unfold_tasks. unfold_payouts. unfold_events. unfold_inserts_but_entries.
  non_negative_frame.
Qed.

Lemma Transaction_create_transaction_negative tid desc eds md w t w1 :
  existsb (fun d => ed_amount d <? 0) eds = true ->
  Transaction_create_transaction tid desc eds md w <> Ok t w1.
Proof.
  intros E H. apply Transaction_create_transaction_inv in H.
  destruct H as (d1 & d2 & -> & _ & P1 & P2 & _).
  cbn in E. rewrite orb_false_r in E. apply orb_true_iff in E.
  destruct E as [E|E]; apply Z.ltb_lt in E; lia.
Qed.

(** C10: every persisted [LedgerEntry] has a non-negative amount.  In a
    world whose stored entries are all non-negative, they still are after
    [Transaction.create_transaction], after
    [LedgerService.create_transaction], after an admission, after any
    task and after any run of the worker; and
    [Transaction.create_transaction] never returns when one of the entries
    supplied has a negative amount, although the zero-sum check is made on
    those same signed amounts. *)
Theorem stored_amounts_non_negative w :
  entries_non_negative w = true ->
  (forall tid desc eds md,
      entries_non_negative (world_of (Transaction_create_transaction tid desc eds md w)) = true
      /\ entries_non_negative (world_of (LedgerService_create_transaction tid desc eds md w)) = true
      /\ (existsb (fun d => ed_amount d <? 0) eds = true ->
          forall t w1, Transaction_create_transaction tid desc eds md w <> Ok t w1))
  /\ (forall key amount ra rn de md,
      entries_non_negative (world_of (PayoutService_initiate_payout key amount ra rn de md w)) = true)
  /\ (forall job, entries_non_negative (world_of (run_task job w)) = true)
  /\ (forall fuel, entries_non_negative (run_worker fuel w) = true).
Proof.
  intros H. repeat split.
  - apply non_negative_Transaction_create_transaction, H.
  - apply non_negative_LedgerService_create_transaction, H.
  - intros E t w1. apply Transaction_create_transaction_negative, E.
  - intros. apply non_negative_initiate_payout, H.
  - intros. apply non_negative_run_task, H.
  - intros fuel. revert w H. induction fuel as [|fuel IH]; intros w H; cbn; [exact H|].
    destruct (celery w) as [|job rest]; [exact H|].
    apply IH. apply non_negative_run_task. exact H.
Qed.

Lemma stored_amounts_non_negative_witness :
  let balanced_signed := [ mkEntryData 0 10000 "DEBIT" None;
                           mkEntryData 1 (-10000) "CREDIT" None ] in
  Transaction_create_transaction "test_txn_001" "Test transaction" balanced_signed None
                                 w_operational
  = Raise (Exn IntegrityError "ledger_entry_amount_non_negative")
          (mkWorld (db w_operational) [] 5)
  /\ entries_non_negative
       (world_of (Transaction_create_transaction "test_txn_001" "Test transaction"
                                                 balanced_signed None w_operational)) = true.
Proof.
  intros balanced_signed. split.
  - vm_compute. reflexivity.
  - apply (stored_amounts_non_negative w_operational ltac:(vm_compute; reflexivity)).
Defined.

(** ** Account balances *)

Lemma rebuild_step_contribution account balance entry :
  rebuild_step account balance entry = balance + contribution account entry.
Proof.
  unfold rebuild_step, contribution, counts_positive.
  destruct (in_list _ _), (LedgerEntry.entry_type entry =? "DEBIT")%string,
    (LedgerEntry.entry_type entry =? "CREDIT")%string; cbn; lia.
Qed.

(** The loop of [rebuild_for_account] computes the specification's sum. *)
Lemma fold_rebuild_step account entries acc :
  fold_left (rebuild_step account) entries acc = acc + spec_balance account entries.
Proof.
  unfold spec_balance. revert acc.
  induction entries as [|e l IH]; intros acc; cbn [fold_left map].
  - unfold sum; cbn; lia.
  - rewrite IH, rebuild_step_contribution, sum_cons. lia.
Qed.

(** The order in which the query returns the entries does not matter. *)
Lemma spec_balance_Permutation account l l' :
  Permutation l l' -> spec_balance account l = spec_balance account l'.
Proof.
  unfold spec_balance. induction 1; cbn [map]; rewrite ?sum_cons; lia.
Qed.

Lemma AccountBalance_save_inv b w u w' :
  AccountBalance_save b w = Ok u w' ->
  (Z.abs (AccountBalance.balance b) <? 10 ^ 19) = true
  /\ ((- 2 ^ 63 <=? AccountBalance.last_event_sequence b)
        && (AccountBalance.last_event_sequence b <=? 2 ^ 63 - 1)) = true
  /\ w' = balances_with (map (replace_balance b)) w.
Proof.
  unfold AccountBalance_save, decimal_19_2, bigint. intros H.
  apply bind_check_inv in H; destruct H as [C1 H].
  apply bind_check_inv in H; destruct H as [C2 H].
  cbn in H. inversion H. auto.
Qed.

Lemma AccountBalance_save_ok b w :
  (Z.abs (AccountBalance.balance b) <? 10 ^ 19) = true ->
  ((- 2 ^ 63 <=? AccountBalance.last_event_sequence b)
     && (AccountBalance.last_event_sequence b <=? 2 ^ 63 - 1)) = true ->
  AccountBalance_save b w = Ok tt (balances_with (map (replace_balance b)) w).
Proof.
  intros C1 C2. unfold AccountBalance_save, decimal_19_2, bigint.
  rewrite (bind_check_true _ _ _ _ C1), (bind_check_true _ _ _ _ C2). reflexivity.
Qed.

Lemma AccountBalance_insert_inv b w u w' :
  AccountBalance_insert b w = Ok u w' ->
  (Z.abs (AccountBalance.balance b) <? 10 ^ 19) = true
  /\ ((- 2 ^ 63 <=? AccountBalance.last_event_sequence b)
        && (AccountBalance.last_event_sequence b <=? 2 ^ 63 - 1)) = true
  /\ w' = balances_with (fun l => l ++ [b]) w.
Proof.
  unfold AccountBalance_insert, decimal_19_2, bigint. intros H.
  apply bind_check_inv in H; destruct H as [C1 H].
  apply bind_check_inv in H; destruct H as [C2 H].
  cbn in H.
  repeat (apply bind_check_inv in H; destruct H as [_ H]; cbn in H).
  inversion H. auto.
Qed.

(** The two ways [rebuild_for_account] returns: the account's row is
    overwritten, or a first row is inserted. *)
Lemma AccountBalance_rebuild_for_account_inv account w ab w1 :
  AccountBalance_rebuild_for_account account w = Ok ab w1 ->
  AccountBalance.balance ab = rebuilt account w
  /\ AccountBalance.account ab = Account.id account
  /\ (Z.abs (AccountBalance.balance ab) <? 10 ^ 19) = true
  /\ ((- 2 ^ 63 <=? AccountBalance.last_event_sequence ab)
        && (AccountBalance.last_event_sequence ab <=? 2 ^ 63 - 1)) = true
  /\ ((exists obj,
          balance_of account w = [obj]
          /\ AccountBalance.id ab = AccountBalance.id obj
          /\ w1 = balances_with (map (replace_balance ab)) w)
      \/ (balance_of account w = []
          /\ AccountBalance.id ab = uuid_next w
          /\ w1 = mkWorld (set_account_balances (fun l => l ++ [ab]) (db w))
                          (celery w) (S (uuid_next w)))).
Proof.
  unfold AccountBalance_rebuild_for_account. intros H.
  unfold bind at 1 in H. cbn [query] in H. fold (rebuilt account w) in H.
  unfold AccountBalance_update_or_create in H. apply atomic_inv in H.
  unfold bind at 1, try_except, objects_get in H. unfold bind at 1 in H.
  fold (balance_of account w) in H.
  destruct (balance_of account w) as [|obj [|obj2 rest]] eqn:F.
  - cbn [is_DoesNotExist exn_cls model_eqb ret] in H.
    apply bind_inv in H. destruct H as (u & w2 & U & H). cbn in U. inversion U; subst u w2; clear U.
    apply bind_inv in H. destruct H as (? & w2 & H & E). cbn in E. inversion E; subst ab w2; clear E.
    apply AccountBalance_insert_inv in H. destruct H as (C1 & C2 & ->).
    cbn [AccountBalance.balance AccountBalance.account AccountBalance.id
         AccountBalance.last_event_sequence] in *.
    repeat split; auto.
  - cbn [ret] in H.
    apply bind_inv in H. destruct H as (? & w2 & H & E). cbn in E. inversion E; subst ab w2; clear E.
    apply AccountBalance_save_inv in H. destruct H as (C1 & C2 & ->).
    assert (A : AccountBalance.account obj = Account.id account).
    { apply filter_singleton_In in F. apply Nat.eqb_eq, F. }
    cbn [AccountBalance.balance AccountBalance.account AccountBalance.id
         AccountBalance.last_event_sequence] in *.
    repeat split; auto. left. exists obj. auto.
  - cbn in H. discriminate H.
Qed.

(** A rebuild that finds the account's row already holding the rebuilt
    balance writes the row back as it is. *)
Lemma AccountBalance_rebuild_for_account_again account w ab :
  balance_of account w = [ab] ->
  rebuilt account w = AccountBalance.balance ab ->
  (Z.abs (AccountBalance.balance ab) <? 10 ^ 19) = true ->
  ((- 2 ^ 63 <=? AccountBalance.last_event_sequence ab)
     && (AccountBalance.last_event_sequence ab <=? 2 ^ 63 - 1)) = true ->
  map (replace_balance ab) (account_balances (db w)) = account_balances (db w) ->
  AccountBalance_rebuild_for_account account w = Ok ab w.
Proof.
  intros F B C1 C2 Fix.
  unfold AccountBalance_rebuild_for_account. unfold bind at 1. cbn [query].
  fold (rebuilt account w). rewrite B.
  unfold AccountBalance_update_or_create, atomic.
  unfold bind at 1, try_except, objects_get. unfold bind at 1.
  fold (balance_of account w). rewrite F. cbn [ret].
  replace (AccountBalance.mk (AccountBalance.id ab) (AccountBalance.account ab)
             (AccountBalance.balance ab) (AccountBalance.last_event_sequence ab))
    with ab by (destruct ab; reflexivity).
  unfold bind. rewrite (AccountBalance_save_ok ab w C1 C2).
  unfold balances_with, set_account_balances. rewrite Fix.
  destruct w as [d q n]; destruct d; reflexivity.
Qed.

(** After a rebuild the account has exactly one row, and that row is a
    fixed point of the write the next rebuild makes. *)
Lemma rebuilt_row_stable account w ab w1 :
  balances_ok w ->
  AccountBalance.account ab = Account.id account ->
  (exists obj,
      balance_of account w = [obj]
      /\ AccountBalance.id ab = AccountBalance.id obj
      /\ w1 = balances_with (map (replace_balance ab)) w)
  \/ (balance_of account w = []
      /\ AccountBalance.id ab = uuid_next w
      /\ w1 = mkWorld (set_account_balances (fun l => l ++ [ab]) (db w))
                      (celery w) (S (uuid_next w))) ->
  balance_of account w1 = [ab]
  /\ map (replace_balance ab) (account_balances (db w1)) = account_balances (db w1)
  /\ rebuilt account w1 = rebuilt account w.
Proof.
  intros (D & L) A [(obj & F & I & ->) | (F & I & ->)].
  - pose proof (filter_singleton_In _ _ _ F) as (Io & Ao). apply Nat.eqb_eq in Ao.
    assert (R : forall r, In r (account_balances (db w)) ->
                          AccountBalance.id r = AccountBalance.id ab -> r = obj).
    { intros r Ir E. apply (distinct_In_eq AccountBalance.id _ r obj D Ir Io). congruence. }
    split; [|split].
    + unfold balance_of, balances_with. cbn [db account_balances set_account_balances].
      rewrite filter_map_commute.
      * fold (balance_of account w). rewrite F. cbn. unfold replace_balance.
        rewrite I, Nat.eqb_refl. reflexivity.
      * intros r Ir. unfold replace_balance.
        destruct (Nat.eqb_spec (AccountBalance.id r) (AccountBalance.id ab)) as [E|E];
          [|reflexivity].
        rewrite (R r Ir E), A, Ao. reflexivity.
    + unfold balances_with. cbn [db account_balances set_account_balances].
      rewrite map_map. apply map_ext. intros r. unfold replace_balance.
      destruct (Nat.eqb_spec (AccountBalance.id r) (AccountBalance.id ab)) as [E|E].
      * rewrite Nat.eqb_refl. reflexivity.
      * apply Nat.eqb_neq in E. rewrite E. reflexivity.
    + reflexivity.
  - split; [|split].
    + unfold balance_of. cbn [db account_balances set_account_balances].
      rewrite filter_app. fold (balance_of account w). rewrite F. cbn.
      rewrite A, Nat.eqb_refl. reflexivity.
    + cbn [db account_balances set_account_balances].
      rewrite map_app. cbn. unfold replace_balance at 2. rewrite Nat.eqb_refl.
      f_equal. apply map_id_on. intros r Ir. unfold replace_balance.
      rewrite forallb_forall in L. specialize (L r Ir). apply Nat.ltb_lt in L.
      destruct (Nat.eqb_spec (AccountBalance.id r) (AccountBalance.id ab)) as [E|E];
        [lia | reflexivity].
    + reflexivity.
Qed.

(** C9: [AccountBalance.rebuild_for_account] is idempotent and
    deterministic.  When it returns the row [ab], the balance of [ab] is
    the sum over the account's ledger entries of [+amount] for a DEBIT on
    an ASSET or EXPENSE account and for a CREDIT on any other account, and
    of [-amount] otherwise; the account then has exactly that one balance
    row; running the rebuild again returns the same row and leaves the
    world as it is; and the balance is the same for every order in which
    the entries are read. *)
Theorem rebuild_for_account_idempotent account w ab w1 :
  balances_ok w ->
  AccountBalance_rebuild_for_account account w = Ok ab w1 ->
  AccountBalance.balance ab
    = spec_balance account (entries_of_account (Account.id account) (db w))
  /\ balance_of account w1 = [ab]
  /\ AccountBalance_rebuild_for_account account w1 = Ok ab w1
  /\ (forall entries,
        Permutation entries (entries_of_account (Account.id account) (db w)) ->
        fold_left (rebuild_step account) entries 0 = AccountBalance.balance ab).
Proof.
  intros OK H.
  apply AccountBalance_rebuild_for_account_inv in H.
  destruct H as (B & A & C1 & C2 & H).
  assert (S : AccountBalance.balance ab
              = spec_balance account (entries_of_account (Account.id account) (db w))).
  { rewrite B. unfold rebuilt. rewrite fold_rebuild_step. lia. }
  destruct (rebuilt_row_stable account w ab w1 OK A H) as (G1 & G2 & G3).
  repeat split; auto.
  - apply AccountBalance_rebuild_for_account_again; auto. congruence.
  - intros entries Pm.
    rewrite fold_rebuild_step, S, (spec_balance_Permutation _ _ _ Pm). lia.
Qed.

Lemma rebuild_for_account_idempotent_witness :
  let account := Account.mk 0 "ASSET_004" "Cash Account" "ASSET" in
  let ab := AccountBalance.mk 6 0 7500 0 in
  exists w1,
    AccountBalance_rebuild_for_account account w_rebuild = Ok ab w1
    /\ AccountBalance.balance ab
       = spec_balance account (entries_of_account (Account.id account) (db w_rebuild))
    /\ balance_of account w1 = [ab]
    /\ AccountBalance_rebuild_for_account account w1 = Ok ab w1.
Proof.
  intros account ab. eexists. split; [vm_compute; reflexivity|].
  pose proof (rebuild_for_account_idempotent account w_rebuild ab _
                (conj eq_refl eq_refl) eq_refl) as (A & B & C & _).
  auto.
Defined.

(** ** Payout state machine *)

Lemma Payout_objects_get_row payout_id w payout :
  payout_rows payout_id w = [payout] -> Payout_objects_get payout_id w = Ok payout w.
Proof.
  unfold Payout_objects_get, objects_get, payout_rows. intros ->. reflexivity.
Qed.

Lemma Payout_mark_processing_not_pending self payout w :
  payout_rows (Payout.id self) w = [payout] ->
  (Payout.status payout =? "PENDING")%string = false ->
  Payout_mark_processing self w
  = Raise (Exn ValueError ("Cannot process payout in status: " +++ Payout.status payout)) w.
Proof.
  intros F S. unfold Payout_mark_processing, atomic, bind, objects_get.
  unfold payout_rows in F. rewrite F, S. cbn [negb raise]. unfold raise.
  rewrite world_eta. reflexivity.
Qed.

(** C7: the claim is that [mark_processing] on a payout that is not
    PENDING returns the payout unchanged instead of raising.  The code
    raises: for every payout row whose status is not PENDING,
    [mark_processing] raises [ValueError] "Cannot process payout in
    status: ..." (and changes nothing). *)
Theorem mark_processing_raises_unless_pending self payout w :
  payout_rows (Payout.id self) w = [payout] ->
  Payout.status payout <> "PENDING" ->
  Payout_mark_processing self w
  = Raise (Exn ValueError ("Cannot process payout in status: " +++ Payout.status payout)) w.
Proof.
  intros F S. apply Payout_mark_processing_not_pending; [exact F|].
  apply String.eqb_neq, S.
Qed.

Lemma mark_processing_raises_unless_pending_witness :
  Payout_mark_processing processing_payout (world_with processing_payout)
  = Raise (Exn ValueError "Cannot process payout in status: PROCESSING")
          (world_with processing_payout).
Proof.
  apply (mark_processing_raises_unless_pending processing_payout processing_payout
           (world_with processing_payout)).
  - reflexivity.
  - cbn. discriminate.
Defined.

Lemma is_terminal_cases s :
  is_terminal s = true -> s = "COMPLETED" \/ s = "FAILED" \/ s = "CANCELLED".
Proof.
  unfold is_terminal, in_list. cbn. rewrite !orb_true_iff, !String.eqb_eq.
  intuition discriminate.
Qed.

Lemma terminal_not_pending s : is_terminal s = true -> (s =? "PENDING")%string = false.
Proof. intros H. destruct (is_terminal_cases s H) as [-> | [-> | ->]]; reflexivity. Qed.

Lemma process_payout_task_terminal job payout_id payout w :
  payout_rows payout_id w = [payout] ->
  is_terminal (Payout.status payout) = true ->
  db (world_of (process_payout_task job payout_id w)) = db w.
Proof.
  intros F T. unfold process_payout_task, task_handlers, try_except.
  unfold bind at 1. rewrite (Payout_objects_get_row _ _ _ F).
  destruct (in_list (Payout.status payout) ["COMPLETED"; "FAILED"]) eqn:E.
  - reflexivity.
  - assert (I : Payout.id payout = payout_id).
    { apply filter_singleton_In in F. apply Nat.eqb_eq, F. }
    unfold bind at 1. unfold PayoutService_process_payout, atomic. unfold bind at 1.
    rewrite (Payout_mark_processing_not_pending payout payout w)
      by (rewrite ?I; auto using terminal_not_pending).
    rewrite world_eta. cbn [is_Exception is_DoesNotExist exn_cls].
    unfold retry. destruct (Nat.ltb _ _); reflexivity.
Qed.

Lemma initiate_external_payout_terminal job payout_id payout w :
  payout_rows payout_id w = [payout] ->
  is_terminal (Payout.status payout) = true ->
  world_of (initiate_external_payout job payout_id w) = w.
Proof.
  intros F T. unfold initiate_external_payout, task_handlers, try_except.
  unfold bind at 1. rewrite (Payout_objects_get_row _ _ _ F).
  destruct (is_terminal_cases _ T) as [E|[E|E]]; rewrite E; reflexivity.
Qed.

Lemma complete_external_payout_completed job payout_id ext payout w :
  payout_rows payout_id w = [payout] ->
  Payout.status payout = "COMPLETED" ->
  world_of (complete_external_payout job payout_id ext w) = w.
Proof.
  intros F E. unfold complete_external_payout, task_handlers, try_except.
  unfold bind at 1. rewrite (Payout_objects_get_row _ _ _ F).
  destruct (option_string_eqb _ _); cbn [negb]; [|reflexivity].
  rewrite E. reflexivity.
Qed.

(** C8 as stated fails: [mark_failed] turns a COMPLETED payout into a
    FAILED one, and [mark_completed] turns a FAILED payout into a
    COMPLETED one.  Neither method looks at the current status. *)
Lemma terminal_states_not_absorbing :
  statuses 2 (world_with completed_payout) = ["COMPLETED"]
  /\ statuses 2 (world_of (Payout_mark_failed completed_payout "boom"
                                              (world_with completed_payout)))
     = ["FAILED"]
  /\ statuses 2 (world_with failed_payout) = ["FAILED"]
  /\ statuses 2 (world_of (Payout_mark_completed failed_payout None None
                                                 (world_with failed_payout)))
     = ["COMPLETED"]
  /\ ~ absorbing (fun self => Payout_mark_failed self "boom")
  /\ ~ absorbing (fun self => Payout_mark_completed self None None).
Proof.
  split; [vm_compute; reflexivity|].
  split; [vm_compute; reflexivity|].
  split; [vm_compute; reflexivity|].
  split; [vm_compute; reflexivity|].
  split; intros H.
  - specialize (H (world_with completed_payout) completed_payout eq_refl eq_refl).
    vm_compute in H. discriminate H.
  - specialize (H (world_with failed_payout) failed_payout eq_refl eq_refl).
    vm_compute in H. discriminate H.
Qed.

(** C8, amended: a payout in COMPLETED, FAILED or CANCELLED is left as it
    is by the operations that look at the status first.
    [mark_processing] raises and changes nothing; [process_payout_task]
    leaves the database as it is; [initiate_external_payout] leaves the
    world as it is; and [complete_external_payout] leaves the world as it
    is when the payout is COMPLETED. *)
Theorem terminal_states_absorbing_for_guarded_operations payout_id payout w :
  payout_rows payout_id w = [payout] ->
  is_terminal (Payout.status payout) = true ->
  (forall self, Payout.id self = payout_id ->
     Payout_mark_processing self w
     = Raise (Exn ValueError ("Cannot process payout in status: " +++ Payout.status payout)) w)
  /\ (forall job, db (world_of (process_payout_task job payout_id w)) = db w)
  /\ (forall job, world_of (initiate_external_payout job payout_id w) = w)
  /\ (Payout.status payout = "COMPLETED" ->
      forall job ext, world_of (complete_external_payout job payout_id ext w) = w).
Proof.
  intros F T. repeat split.
  - intros self <-. apply Payout_mark_processing_not_pending; auto using terminal_not_pending.
  - intros job. eapply process_payout_task_terminal; eauto.
  - intros job. eapply initiate_external_payout_terminal; eauto.
  - intros E job ext. eapply complete_external_payout_completed; eauto.
Qed.

Lemma terminal_states_absorbing_for_guarded_operations_witness :
  let w := world_with cancelled_payout in
  let job := mkJob (process_payout_job 2) 0 in
  db (world_of (process_payout_task job 2 w)) = db w
  /\ world_of (initiate_external_payout job 2 w) = w.
Proof.
  intros w job.
  pose proof (terminal_states_absorbing_for_guarded_operations 2 cancelled_payout w
                eq_refl eq_refl) as (_ & A & B & _).
  split; [apply A | apply B].
Defined.

(** ** Admission *)

Lemma get_or_create_pending_existing key defaults w payout :
  payouts_with_key key w = [payout] ->
  Payout_get_or_create_pending key defaults w = Ok (payout, false) w.
Proof.
  unfold payouts_with_key. intros F.
  unfold Payout_get_or_create_pending, atomic, try_except, bind, objects_get.
  rewrite F. reflexivity.
Qed.

(** A call for a key that one stored payout has returns that payout and
    writes nothing. *)
Lemma initiate_payout_existing key amount ra rn de md w payout :
  payouts_with_key key w = [payout] ->
  PayoutService_initiate_payout key amount ra rn de md w = Ok payout w.
Proof.
  intros F. unfold PayoutService_initiate_payout, atomic. unfold bind at 1.
  rewrite (get_or_create_pending_existing _ _ _ _ F). reflexivity.
Qed.

Lemma Payout_objects_create_ok key status defaults w :
  existsb (fun r => (Payout.idempotency_key r =? key)%string) (payouts (db w)) = false ->
  (key =? "")%string = false ->
  str_length key <= 255 -> str_length status <= 20 ->
  0 < d_amount defaults < 10 ^ 19 ->
  str_length (d_recipient_account defaults) <= 255 ->
  str_length (d_recipient_name defaults) <= 255 ->
  let p := Payout.mk (uuid_next w) key (d_amount defaults) "USD"
                     (d_recipient_account defaults) (d_recipient_name defaults)
                     (d_description defaults) status None None None None 0
                     (d_metadata defaults) in
  Payout_objects_create key status defaults w
  = Ok p (mkWorld (set_payouts (fun l => l ++ [p]) (db w)) (celery w) (S (uuid_next w))).
Proof.
  intros U NE L1 L2 A L3 L4 p.
  unfold Payout_objects_create. unfold bind at 1. cbn [uuid4].
  fold p. unfold bind at 1. unfold Payout_insert, varchar, decimal_19_2, integer.
  cbn [Payout.idempotency_key Payout.amount Payout.currency Payout.recipient_account
       Payout.recipient_name Payout.status Payout.ledger_transaction_id
       Payout.external_payout_id Payout.external_reference Payout.retry_count p
       varchar_opt].
  rewrite bind_check_true by (apply Z.ltb_lt; lia).
  do 5 pass.
  unfold bind at 1. cbn [ret]. unfold bind at 1. cbn [ret]. unfold bind at 1. cbn [ret].
  pass.
  rewrite bind_check_true by (rewrite NE; reflexivity).
  pass. unfold bind at 1. cbn [query db].
  rewrite bind_check_true by (rewrite U; reflexivity).
  reflexivity.
Qed.

Lemma PayoutEvent_objects_create_ok payout ty data w :
  has_payout payout (db w) = true ->
  str_length ty <= 50 ->
  let e := PayoutEvent.mk (uuid_next w) payout ty data in
  PayoutEvent_objects_create payout ty data w
  = Ok e (mkWorld (set_payout_events (fun l => l ++ [e]) (db w)) (celery w) (S (uuid_next w))).
Proof.
  intros K L e.
  unfold PayoutEvent_objects_create. unfold bind at 1. cbn [uuid4].
  fold e. unfold bind at 1. unfold PayoutEvent_insert, varchar.
  cbn [PayoutEvent.event_type PayoutEvent.payout e].
  pass. unfold bind at 1. cbn [query db].
  rewrite bind_check_true by exact K.
  reflexivity.
Qed.

Lemma PayoutSummary_objects_create_ok payout amount status ra w :
  has_payout payout (db w) = true ->
  existsb (fun r => Nat.eqb (PayoutSummary.payout r) payout) (payout_summaries (db w)) = false ->
  Z.abs amount < 10 ^ 19 ->
  str_length status <= 20 -> str_length ra <= 255 ->
  let s := PayoutSummary.mk (uuid_next w) payout amount status ra in
  PayoutSummary_objects_create payout amount status ra w
  = Ok s (mkWorld (set_payout_summaries (fun l => l ++ [s]) (db w)) (celery w)
                  (S (uuid_next w))).
Proof.
  intros K U A L1 L2 s.
  unfold PayoutSummary_objects_create. unfold bind at 1. cbn [uuid4].
  fold s. unfold bind at 1. unfold PayoutSummary_insert, varchar, decimal_19_2.
  cbn [PayoutSummary.total_amount PayoutSummary.status PayoutSummary.recipient_account
       PayoutSummary.payout s].
  rewrite bind_check_true by (apply Z.ltb_lt; lia).
  do 2 pass. unfold bind at 1. cbn [query db].
  rewrite bind_check_true by exact K.
  unfold bind at 1. cbn [query db].
  rewrite bind_check_true by (rewrite U; reflexivity).
  reflexivity.
Qed.

Lemma has_payout_last p l d :
  payouts d = l ++ [p] -> has_payout (Payout.id p) d = true.
Proof.
  unfold has_payout. intros ->. rewrite existsb_app; cbn.
  rewrite Nat.eqb_refl, orb_true_r. reflexivity.
Qed.

(** The first admission of a key, step by step. *)
Lemma initiate_payout_new key amount ra rn de md w :
  payouts_with_key key w = [] ->
  valid_admission key amount ra rn = true ->
  ready_for_admission key w = true ->
  PayoutService_initiate_payout key amount ra rn de md w
  = Ok (admitted_payout key amount ra rn de md w) (admitted_world key amount ra rn de md w).
Proof.
  intros F V R.
  unfold valid_admission in V. rewrite !andb_true_iff, negb_true_iff in V.
  destruct V as (((((V1 & V2) & V3) & V4) & V5) & V6).
  apply Z.leb_le in V2, V5, V6. apply Z.ltb_lt in V3, V4.
  unfold ready_for_admission in R. rewrite !andb_true_iff, !negb_true_iff in R.
  destruct R as (((R1 & R2) & R3) & R4). apply Z.ltb_lt in R3. apply Z.leb_le in R4.
  unfold PayoutService_initiate_payout, atomic. unfold bind at 1.
  unfold Payout_get_or_create_pending, atomic, try_except. unfold bind at 1.
  unfold objects_get. fold (payouts_with_key key w). rewrite F.
  cbn [is_DoesNotExist exn_cls model_eqb]. unfold bind at 1.
  rewrite Payout_objects_create_ok; cbn [d_amount d_recipient_account d_recipient_name];
    try lia; try assumption; try (cbn; lia);
    [| apply filter_nil_existsb; exact F ].
  cbn [ret negb d_description d_metadata].
  fold (admitted_payout key amount ra rn de md w).
  set (p := admitted_payout key amount ra rn de md w).
  unfold bind at 1.
  rewrite PayoutEvent_objects_create_ok;
    [| cbn [db]; eapply has_payout_last; reflexivity | cbn; lia ].
  unfold bind at 1. cbn [uuid4 uuid_next db celery].
  unfold bind at 1.
  fold (payout_created_event_id key (S (S (uuid_next w)))).
  assert (E1 : str_length (payout_created_event_id key (S (S (uuid_next w)))) <= 255).
  { unfold str_length, payout_created_event_id.
    rewrite !length_append, length_str_uuid. cbn [String.length].
    unfold str_length in V2. lia. }
  assert (E2 : str_length (str_uuid (Payout.id p)) <= 255).
  { unfold str_length. rewrite length_str_uuid. cbn. lia. }
  rewrite Event_create_event_new; cbn [db events set_payout_events set_payouts uuid_next];
    [ | exact R1 | reflexivity | exact E1 | vm_compute; discriminate | exact E2
      | vm_compute; discriminate
      | idtac ].
  2: { unfold next_sequence_number in *; cbn [events set_payout_events set_payouts]; lia. }
  unfold bind at 1.
  rewrite PayoutSummary_objects_create_ok.
  2: { cbn [db append_event set_events]. eapply has_payout_last; reflexivity. }
  2: { cbn [db append_event set_events set_payout_events set_payouts payout_summaries].
       exact R2. }
  2: lia.
  2: { vm_compute; discriminate. }
  2: exact V5.
  cbn [ret]. unfold admitted_world, append_event, set_events, set_payout_summaries,
    set_payout_events, set_payouts, next_sequence_number, admission_data.
  cbn. reflexivity.
Qed.

(** Admission is idempotent for keys of at most 203 characters.  For such
    a key that no stored payout has, a valid request in a world ready for
    it makes [initiate_payout] return a new PENDING payout and insert
    exactly four rows: the payout, its CREATED [PayoutEvent], the
    PAYOUT_CREATED [Event] and its [PayoutSummary].  Every later call with
    that key, whatever amount, recipient or other parameters it carries,
    returns the stored payout as it is and leaves the world as it is: this
    holds right after the first call, and, for a key of any length, in
    every world in which exactly one payout has the key. *)
Theorem admission_idempotent key amount ra rn de md w :
  payouts_with_key key w = [] ->
  valid_admission key amount ra rn = true ->
  ready_for_admission key w = true ->
  let payout := admitted_payout key amount ra rn de md w in
  let w1 := admitted_world key amount ra rn de md w in
  PayoutService_initiate_payout key amount ra rn de md w = Ok payout w1
  /\ Payout.status payout = "PENDING"
  /\ payouts_with_key key w1 = [payout]
  /\ payouts (db w1) = payouts (db w) ++ [payout]
  /\ payout_events (db w1)
     = payout_events (db w)
       ++ [ PayoutEvent.mk (1 + uuid_next w) (Payout.id payout) "CREATED"
                           (admission_data key amount ra) ]
  /\ events (db w1)
     = events (db w)
       ++ [ Event.mk (3 + uuid_next w) (payout_created_event_id key (2 + uuid_next w))
                     "PAYOUT_CREATED" (str_uuid (Payout.id payout)) "Payout"
                     (admission_data key amount ra) (JDict [])
                     (next_sequence_number (db w)) ]
  /\ payout_summaries (db w1)
     = payout_summaries (db w)
       ++ [ PayoutSummary.mk (4 + uuid_next w) (Payout.id payout) amount "PENDING" ra ]
  /\ (forall amount' ra' rn' de' md',
        PayoutService_initiate_payout key amount' ra' rn' de' md' w1 = Ok payout w1)
  /\ (forall w2 payout2,
        payouts_with_key key w2 = [payout2] ->
        forall amount' ra' rn' de' md',
          PayoutService_initiate_payout key amount' ra' rn' de' md' w2 = Ok payout2 w2).
Proof.
  intros F V R payout w1.
  assert (K : payouts_with_key key w1 = [payout]).
  { unfold payouts_with_key, w1, admitted_world. cbn [db payouts].
    rewrite filter_app. fold (payouts_with_key key w). rewrite F.
    cbn. rewrite String.eqb_refl. reflexivity. }
  repeat split; try reflexivity.
  - apply initiate_payout_new; assumption.
  - exact K.
  - intros. apply initiate_payout_existing, K.
  - intros. apply initiate_payout_existing. assumption.
Qed.

Lemma admission_idempotent_witness :
  let payout := admitted_payout "k2" 5000 "r2" None None None w_operational in
  let w1 := admitted_world "k2" 5000 "r2" None None None w_operational in
  PayoutService_initiate_payout "k2" 5000 "r2" None None None w_operational = Ok payout w1
  /\ PayoutService_initiate_payout "k2" 999 "other" (Some "x") None None w1 = Ok payout w1.
Proof.
  intros payout w1.
  pose proof (admission_idempotent "k2" 5000 "r2" None None None w_operational
                eq_refl eq_refl eq_refl) as (A & _ & _ & _ & _ & _ & _ & B & _).
  split; [exact A | apply B].
Defined.

(** An event id wider than its column: the insert raises and the log is
    as it was. *)
Lemma Event_create_event_too_long event_id ty ag agt data md w :
  stored_event event_id (db w) = false ->
  255 < str_length event_id ->
  Event_create_event event_id ty ag agt data md w
  = Raise (Exn DataError "value too long for type character varying(255)")
          (mkWorld (db w) (celery w) (S (uuid_next w))).
Proof.
  intros S L.
  unfold Event_create_event, atomic. unfold bind at 1. cbn [query].
  fold (stored_event event_id (db w)). rewrite S.
  unfold Event_get_next_sequence_number, atomic. cbn [bind query ret].
  unfold Event_objects_create. unfold bind at 1. cbn [uuid4].
  unfold bind at 1. unfold Event_insert, varchar. cbn [Event.event_id].
  unfold bind at 1.
  replace (str_length event_id <=? 255) with false by (symmetry; apply Z.leb_gt, L).
  reflexivity.
Qed.

Lemma long_key_not_empty key : 203 < str_length key -> (key =? "")%string = false.
Proof. destruct key; [cbn; lia | reflexivity]. Qed.

(** C3: the claim is that the first call of [initiate_payout] for a key
    creates one PENDING payout with its CREATED [PayoutEvent], its
    PAYOUT_CREATED [Event] and its [PayoutSummary].  For a key of 204 to
    255 characters, which [payouts.idempotency_key] (255 characters wide)
    accepts, the code does not: the event id it builds,
    "payout_created_" + key + "_" + uuid, has 52 characters more than the
    key and does not fit [events.event_id], which is 255 characters wide
    too.  The insert of the event raises [DataError], the transaction is
    rolled back, and no payout has the key afterwards. *)
Theorem long_key_not_admitted key amount ra rn de md w :
  payouts_with_key key w = [] ->
  203 < str_length key <= 255 ->
  0 < amount < 10 ^ 19 ->
  str_length ra <= 255 -> str_length (or_empty rn) <= 255 ->
  stored_event (payout_created_event_id key (2 + uuid_next w)) (db w) = false ->
  PayoutService_initiate_payout key amount ra rn de md w
  = Raise (Exn DataError "value too long for type character varying(255)")
          (mkWorld (db w) (celery w) (4 + uuid_next w))
  /\ payouts_with_key key (world_of (PayoutService_initiate_payout key amount ra rn de md w))
     = [].
Proof.
  intros F K A L1 L2 Fresh.
  assert (E : PayoutService_initiate_payout key amount ra rn de md w
              = Raise (Exn DataError "value too long for type character varying(255)")
                      (mkWorld (db w) (celery w) (4 + uuid_next w))).
  { unfold PayoutService_initiate_payout, atomic. unfold bind at 1.
    unfold Payout_get_or_create_pending, atomic, try_except. unfold bind at 1.
    unfold objects_get. fold (payouts_with_key key w). rewrite F.
    cbn [is_DoesNotExist exn_cls model_eqb]. unfold bind at 1.
    rewrite Payout_objects_create_ok; cbn [d_amount d_recipient_account d_recipient_name];
      try lia; try assumption; try (cbn; lia);
      [| apply filter_nil_existsb; exact F | apply long_key_not_empty; lia ].
    cbn [ret negb d_description d_metadata].
    fold (admitted_payout key amount ra rn de md w).
    set (p := admitted_payout key amount ra rn de md w).
    unfold bind at 1.
    rewrite PayoutEvent_objects_create_ok;
      [| cbn [db]; eapply has_payout_last; reflexivity | cbn; lia ].
    unfold bind at 1. cbn [uuid4 uuid_next db celery].
    unfold bind at 1.
    fold (payout_created_event_id key (S (S (uuid_next w)))).
    rewrite Event_create_event_too_long;
      cbn [db events set_payout_events set_payouts uuid_next celery]; [reflexivity | exact Fresh |].
    unfold str_length, payout_created_event_id.
    rewrite !length_append, length_str_uuid. cbn [String.length].
    unfold str_length in K. lia. }
  split; [exact E|]. rewrite E. cbn [world_of]. exact F.
Qed.

Lemma long_key_not_admitted_witness :
  str_length (key_of_length 204) = 204
  /\ PayoutService_initiate_payout (key_of_length 204) 10000 "r1" None None None w_operational
     = Raise (Exn DataError "value too long for type character varying(255)")
             (mkWorld (db w_operational) (celery w_operational) (4 + uuid_next w_operational))
  /\ payouts (db (world_of (PayoutService_initiate_payout (key_of_length 204) 10000 "r1"
                                                          None None None w_operational)))
     = [].
Proof.
  split; [vm_compute; reflexivity|].
  pose proof (long_key_not_admitted (key_of_length 204) 10000 "r1" None None None w_operational
                ltac:(vm_compute; reflexivity)
                ltac:(split; [vm_compute; reflexivity | vm_compute; discriminate])
                ltac:(split; vm_compute; reflexivity)
                ltac:(vm_compute; discriminate)
                ltac:(vm_compute; discriminate)
                ltac:(vm_compute; reflexivity)) as [E _].
  split; [exact E|]. rewrite E. reflexivity.
Defined.

(** ** The worker and the ledger *)























(** C2: the claim is that the worker, run on a payout admitted as PENDING
    with both operational accounts present, posts one balanced ledger
    transaction "payout_" + key, records its id and ends COMPLETED.  The
    code does not: in scenario S1 the payout [k1] of 100.00 is admitted as
    PENDING, and when the worker has emptied the queue the payout is
    FAILED with the message of the zero-sum check, its
    [ledger_transaction_id] is unset, and the ledger holds no transaction
    and no entry. *)
Theorem worker_fails_the_admitted_payout :
  map Payout.status (payouts (db s1_admitted)) = ["PENDING"]
  /\ map Payout.status (payouts (db s1_done)) = ["FAILED"]
  /\ map Payout.error_message (payouts (db s1_done))
     = [Some "Transaction entries must balance to zero. Total: 200.00"]
  /\ map Payout.ledger_transaction_id (payouts (db s1_done)) = [None]
  /\ ledger_transactions (db s1_done) = []
  /\ ledger_entries (db s1_done) = []
  /\ celery s1_done = [].
Proof. vm_compute. repeat split. Qed.

(** * Further properties of the code *)

(** ** Invariants kept and tables that only grow *)

Section Keeps.
Variable I : DB -> Prop.









End Keeps.

Section Grows.
Context {A : Type}.
Variable proj : DB -> list A.









Lemma grows_incl w w' : grows proj w w' -> incl (proj (db w)) (proj (db w')).
Proof. intros [m E] x H. rewrite E. apply in_or_app. left. exact H. Qed.
End Grows.
























(** ** What the worker never does *)



(** ** Payout rows *)





















(** ** What the ledger accepts *)


